(** * interactive_charting: the chart builder [equity_chart_with_signals]

    A shallow embedding of [src/interactive_charting.py].  The function
    validates its plotting parameters, slices a time-indexed table to a date
    range, extends the marker style lists until they cover the signal count,
    and assembles a figure made of one price trace and one marker trace per
    signal column.

    Conventions of the embedding
    - Python [int] is [Z]; timestamps are [Z] (any totally ordered stamp).
    - A pandas column is a list of cells; a cell is a number or a boolean.
      Prices are carried, never computed with, so their carrier is [Z].
    - A raised exception is a value of [exn]; the three [ValueError]s of the
      source are told apart by the message they carry.
    - Lists received from the caller are objects in a store ([heap]); the
      function gets a reference, so that [list.extend] on it is visible to
      the caller.
    - The two [while] loops take fuel; [None] means the loop was still
      running when the fuel was used up.
    - pandas and plotly are libraries outside the source.  What pandas
      answers to a key that is not boolean is a parameter ([pandas]); the
      plotly constructors are taken as they are called, without the checks
      plotly makes of a style string. *)

From Stdlib Require Import ZArith String Ascii List Bool Lia QArith Sorted.
Import ListNotations.
Local Open Scope string_scope.
Local Open Scope Z_scope.

(** ** Exceptions and outcomes *)

(** What the message of a [ValueError] of the source interpolates. *)
Inductive message :=
| BadChartType
    (* "chart_type must be either 'line' or 'candlestick'" *)
| MissingCols (required_cols missing_cols : list string)
    (* "For candlestick chart, DataFrame must include {required_cols}.
        Missing: {missing_cols}" *)
| NamesNotProvided
    (* "signal_column_names must be provided when num_signals > 0" *)
| NamesLengthMismatch (names_len : nat) (num_signals : Z).
    (* "Length of signal_column_names ({len}) must match num_signals ({n})" *)

Inductive exn :=
| ValueError (m : message)
| KeyError (key : string)          (* df[c] on an absent column *)
| IndexError                       (* list index out of range *)
| TypeError                        (* subscripting None *)
| ZeroDivisionError.               (* i % 0 *)

Inductive outcome (A : Type) :=
| Return (a : A)
| Raise (e : exn).
Arguments Return {A} a.
Arguments Raise {A} e.

Definition bind {A B} (c : outcome A) (k : A -> outcome B) : outcome B :=
  match c with
  | Return a => k a
  | Raise e => Raise e
  end.

Notation "x <- c ;; k" := (bind c (fun x => k))
  (at level 61, c at next level, right associativity).
Notation "c ;;; k" := (bind c (fun _ => k))
  (at level 61, right associativity).

(** [if cond: raise e] *)
Definition raise_if (cond : bool) (e : exn) : outcome unit :=
  if cond then Raise e else Return tt.

(** The error kinds of the specification, as predicates on exceptions. *)
Definition InvalidChartType (e : exn) : Prop := e = ValueError BadChartType.

Definition MissingColumns (missing : list string) (e : exn) : Prop :=
  exists required, e = ValueError (MissingCols required missing).

Definition SignalConfigMismatch (e : exn) : Prop :=
  e = ValueError NamesNotProvided \/
  exists len n, e = ValueError (NamesLengthMismatch len n).

(** ** Python primitives *)

Definition len {A} (xs : list A) : Z := Z.of_nat (length xs).

(** [x in xs] for strings. *)
Fixpoint str_in (x : string) (xs : list string) : bool :=
  match xs with
  | [] => false
  | y :: ys => String.eqb x y || str_in x ys
  end.

(** [a % b]: the sign follows the divisor, as for [Z.modulo]. *)
Definition py_mod (a b : Z) : outcome Z :=
  if b =? 0 then Raise ZeroDivisionError else Return (a mod b).

(** [xs[i]]: a negative index counts from the end. *)
Definition py_getitem {A} (xs : list A) (i : Z) : outcome A :=
  let j := if i <? 0 then i + len xs else i in
  if j <? 0 then Raise IndexError
  else match nth_error xs (Z.to_nat j) with
       | Some x => Return x
       | None => Raise IndexError
       end.

(** [names[i]] where [names] may be [None]. *)
Definition opt_getitem {A} (xs : option (list A)) (i : Z) : outcome A :=
  match xs with
  | None => Raise TypeError
  | Some l => py_getitem l i
  end.

(** [for i in range(n)], collecting what each round appends; the first
    exception leaves the loop. *)
Fixpoint for_from {A} (body : Z -> outcome A) (i : Z) (rounds : nat)
  : outcome (list A) :=
  match rounds with
  | O => Return []
  | S k => t <- body i ;; ts <- for_from body (i + 1) k ;; Return (t :: ts)
  end.

Definition for_range {A} (n : Z) (body : Z -> outcome A) : outcome (list A) :=
  for_from body 0 (Z.to_nat n).

(** [str.capitalize()] on ASCII letters: first character upper case, the
    others lower case. *)
Definition upper_char (c : ascii) : ascii :=
  let n := N_of_ascii c in
  if ((97 <=? n) && (n <=? 122))%N then ascii_of_N (n - 32) else c.

Definition lower_char (c : ascii) : ascii :=
  let n := N_of_ascii c in
  if ((65 <=? n) && (n <=? 90))%N then ascii_of_N (n + 32) else c.

Fixpoint lower (s : string) : string :=
  match s with
  | EmptyString => EmptyString
  | String c r => String (lower_char c) (lower r)
  end.

Definition capitalize (s : string) : string :=
  match s with
  | EmptyString => EmptyString
  | String c r => String (upper_char c) (lower r)
  end.

(** ** The input table *)

Definition timestamp := Z.
Definition price := Z.

Inductive cell :=
| Num (v : price)
| Flag (b : bool).

(** A DataFrame: the row index and the named columns, in column order.
    Invariants of the data model (see [well_formed]): the index is ascending
    and every column has one cell per row. *)
Record DataFrame := {
  index : list timestamp;
  data : list (string * list cell)
}.

(** [df.columns] *)
Definition columns (df : DataFrame) : list string := map fst (data df).

Fixpoint lookup_column (cols : list (string * list cell)) (c : string)
  : option (list cell) :=
  match cols with
  | [] => None
  | (name, vs) :: rest =>
      if String.eqb c name then Some vs else lookup_column rest c
  end.

(** [df[c]] *)
Definition df_getitem (df : DataFrame) (c : string) : outcome (list cell) :=
  match lookup_column (data df) c with
  | Some vs => Return vs
  | None => Raise (KeyError c)
  end.

Fixpoint ascending (ts : list timestamp) : bool :=
  match ts with
  | [] => true
  | t :: rest =>
      match rest with
      | [] => true
      | u :: _ => (t <=? u) && ascending rest
      end
  end.

Definition well_formed (df : DataFrame) : bool :=
  ascending (index df) &&
  forallb (fun '(_, vs) => Nat.eqb (length vs) (length (index df))) (data df).

(** Position reached by a search over an ascending index: the number of
    leading stamps that satisfy [p]. *)
Fixpoint searchsorted (p : timestamp -> bool) (ts : list timestamp) : nat :=
  match ts with
  | [] => O
  | t :: rest => if p t then S (searchsorted p rest) else O
  end.

(** Positions [lo, hi) of a list. *)
Definition slice {A} (lo hi : nat) (xs : list A) : list A :=
  firstn (hi - lo) (skipn lo xs).

(** [df.loc[start_date:end_date].copy()]: on an ascending index a label
    slice is the block of rows from the first stamp [>= start_date] to the
    last stamp [<= end_date], both ends included; the copy is a new table. *)
Definition loc_slice (df : DataFrame) (start_date end_date : timestamp)
  : DataFrame :=
  let lo := searchsorted (fun t => t <? start_date) (index df) in
  let hi := searchsorted (fun t => t <=? end_date) (index df) in
  {| index := slice lo hi (index df);
     data := map (fun '(c, vs) => (c, slice lo hi vs)) (data df) |}.

(** A boolean column as a mask; [None] for any other column. *)
Fixpoint as_mask (vs : list cell) : option (list bool) :=
  match vs with
  | [] => Some []
  | Flag b :: rest => option_map (cons b) (as_mask rest)
  | Num _ :: _ => None
  end.

(** [xs[mask]]: the entries at the positions where the mask is true. *)
Fixpoint select {A} (mask : list bool) (xs : list A) : list A :=
  match mask, xs with
  | b :: m, x :: r => if b then x :: select m r else select m r
  | _, _ => []
  end.

(** ** Indexing with a signal column *)

(** Lines 119 and 122 index the row index and the price column with the
    signal column, whatever its type; the function makes no check of its
    own.  With a boolean column pandas keeps the rows where the column is
    true.  With any other column the answer is decided inside pandas, by
    the dtype of the column and the version of the library (the values read
    as positions or as labels, or an exception): the embedding takes that
    answer as a parameter and says nothing about it. *)
Record pandas := {
  (* [idx[key]] for a key that is not boolean *)
  index_getitem : list timestamp -> list cell -> outcome (list timestamp);
  (* [series[key]] for a key that is not boolean, on a series with
     index [idx] and values [vs] *)
  series_getitem :
    list timestamp -> list cell -> list cell -> outcome (list cell)
}.

(** [idx[key]] *)
Definition index_at (pd : pandas) (idx : list timestamp) (key : list cell)
  : outcome (list timestamp) :=
  match as_mask key with
  | Some mask => Return (select mask idx)
  | None => index_getitem pd idx key
  end.

(** [series[key]], the series being column [vs] of a table indexed by
    [idx] *)
Definition series_at (pd : pandas) (idx : list timestamp) (vs key : list cell)
  : outcome (list cell) :=
  match as_mask key with
  | Some mask => Return (select mask vs)
  | None => series_getitem pd idx vs key
  end.

(** ** The caller's list objects *)

Definition loc := nat.
Definition heap := loc -> list string.

Definition store (l : loc) (xs : list string) (h : heap) : heap :=
  fun l' => if Nat.eqb l' l then xs else h l'.

(** What a marker-list variable of the function points to: a list object of
    the caller, or the list the function built itself. *)
Inductive listvar :=
| Caller (l : loc)
| Local (xs : list string).

Definition contents (h : heap) (v : listvar) : list string :=
  match v with
  | Caller l => h l
  | Local xs => xs
  end.

(** [v.extend(v)] *)
Definition extend_self (h : heap) (v : listvar) : heap * listvar :=
  match v with
  | Caller l => (store l (h l ++ h l) h, Caller l)
  | Local xs => (h, Local (xs ++ xs))
  end.

(** [while len(v) < num_signals: v.extend(v)] *)
Fixpoint ensure_enough (fuel : nat) (num_signals : Z) (h : heap) (v : listvar)
  : option (heap * listvar) :=
  if len (contents h v) <? num_signals then
    match fuel with
    | O => None
    | S fuel' =>
        let '(h', v') := extend_self h v in
        ensure_enough fuel' num_signals h' v'
    end
  else Some (h, v).

(** ** The figure *)

Record line_style := {
  line_width : Z;
  line_color : option string
}.

Record marker_style := {
  marker_color : string;
  marker_symbol : string;
  marker_size : Z;
  marker_line : line_style
}.

Inductive trace :=
| Scatter (x : list timestamp) (y : list cell) (mode name : string)
          (line : option line_style) (marker : option marker_style)
| Candlestick (x : list timestamp) (open high low close : list cell)
              (name increasing_line_color decreasing_line_color : string)
              (whiskerwidth : Q).

Record legend_layout := {
  orientation : string;
  yanchor : string;
  legend_y : Q;
  xanchor : string;
  legend_x : Q
}.

Record layout := {
  title : string;
  xaxis_title : string;
  yaxis_title : string;
  xaxis_rangeslider_visible : bool;
  xaxis_type : string;
  yaxis_autorange : bool;
  yaxis_fixedrange : bool;
  legend : legend_layout;
  template : string;
  width : Z;
  height : Z;
  hovermode : string
}.

Record Figure := {
  secondary_y : bool;
  traces : list trace;
  fig_layout : layout
}.

(** ** The chart builder *)

Definition default_symbols : list string :=
  ["triangle-down"; "triangle-up"; "circle"; "square"; "diamond"; "cross"; "x"].

Definition default_colors : list string :=
  ["green"; "red"; "blue"; "purple"; "orange"; "teal"; "magenta"].

Definition required_cols : list string := ["open"; "high"; "low"; "close"].

(** Lines 57: the required columns that the table lacks. *)
Definition missing_cols (df : DataFrame) : list string :=
  filter (fun col => negb (str_in col (columns df))) required_cols.

Definition is_empty {A} (xs : list A) : bool :=
  match xs with [] => true | _ => false end.

Definition is_none {A} (x : option A) : bool :=
  match x with None => true | Some _ => false end.

(** Lines 51-65. *)
Definition validate (df : DataFrame) (chart_type : string) (num_signals : Z)
           (signal_column_names : option (list string)) : outcome unit :=
  raise_if (negb (str_in chart_type ["line"; "candlestick"]))
           (ValueError BadChartType) ;;;
  (if String.eqb chart_type "candlestick" then
     raise_if (negb (is_empty (missing_cols df)))
              (ValueError (MissingCols required_cols (missing_cols df)))
   else Return tt) ;;;
  raise_if ((0 <? num_signals) && is_none signal_column_names)
           (ValueError NamesNotProvided) ;;;
  match signal_column_names with
  | Some names =>
      raise_if (negb (len names =? num_signals))
               (ValueError (NamesLengthMismatch (length names) num_signals))
  | None => Return tt
  end.

(** Lines 91-112. *)
Definition price_trace (df_filtered : DataFrame)
           (chart_type price_column : string)
           (candlestick_increasing_color candlestick_decreasing_color : string)
  : outcome trace :=
  if String.eqb chart_type "line" then
    y <- df_getitem df_filtered price_column ;;
    Return (Scatter (index df_filtered) y "lines"
                    (capitalize price_column ++ " Price")
                    (Some {| line_width := 2; line_color := None |}) None)
  else
    o <- df_getitem df_filtered "open" ;;
    h <- df_getitem df_filtered "high" ;;
    l <- df_getitem df_filtered "low" ;;
    c <- df_getitem df_filtered "close" ;;
    Return (Candlestick (index df_filtered) o h l c "OHLC"
                        candlestick_increasing_color
                        candlestick_decreasing_color (9 # 10)%Q).

Section Builder.

(** What pandas answers to a key that is not boolean. *)
Variable pd : pandas.

(** Lines 116-136: the body of the signal loop, for round [i]. *)
Definition signal_trace (df_filtered : DataFrame) (price_column : string)
           (signal_column_names : option (list string))
           (marker_symbols marker_colors : list string) (i : Z)
  : outcome trace :=
  signal_col <- opt_getitem signal_column_names i ;;
  sig <- df_getitem df_filtered signal_col ;;
  signal_indices <- index_at pd (index df_filtered) sig ;;
  prices <- df_getitem df_filtered price_column ;;
  base_prices <- series_at pd (index df_filtered) prices sig ;;
  ci <- py_mod i (len marker_colors) ;;
  color <- py_getitem marker_colors ci ;;
  si <- py_mod i (len marker_symbols) ;;
  symbol <- py_getitem marker_symbols si ;;
  Return (Scatter signal_indices base_prices "markers" signal_col None
                  (Some {| marker_color := color;
                           marker_symbol := symbol;
                           marker_size := 12;
                           marker_line := {| line_width := 1;
                                             line_color := Some "black" |} |})).

(** Lines 139-156. *)
Definition chart_layout (title : string) : layout :=
  {| title := title;
     xaxis_title := "Date";
     yaxis_title := "Price";
     xaxis_rangeslider_visible := false;
     xaxis_type := "date";
     yaxis_autorange := true;
     yaxis_fixedrange := false;
     legend := {| orientation := "h"; yanchor := "bottom";
                  legend_y := (102 # 100)%Q; xanchor := "right";
                  legend_x := 1%Q |};
     template := "plotly_white";
     width := 1600;
     height := 1000;
     hovermode := "closest" |}.

(** Lines 88-158: the figure, once the marker lists are resolved. *)
Definition build_figure (df_filtered : DataFrame)
           (chart_type price_column : string) (num_signals : Z)
           (signal_column_names : option (list string)) (title : string)
           (marker_symbols marker_colors : list string)
           (candlestick_increasing_color candlestick_decreasing_color : string)
  : outcome Figure :=
  p <- price_trace df_filtered chart_type price_column
                   candlestick_increasing_color candlestick_decreasing_color ;;
  ms <- for_range num_signals
          (signal_trace df_filtered price_column signal_column_names
                        marker_symbols marker_colors) ;;
  Return {| secondary_y := true;
            traces := p :: ms;
            fig_layout := chart_layout title |}.

(** Lines 74-78: [None] stands for a list the function builds itself. *)
Definition or_default (arg : option loc) (default : list string) : listvar :=
  match arg with
  | None => Local default
  | Some l => Caller l
  end.

(** The whole function.  The result is [None] when a [while] loop outlives
    the fuel; otherwise the caller's store after the call and either the
    figure or the exception. *)
Definition equity_chart_with_signals (fuel : nat) (h : heap)
           (df : DataFrame) (start_date end_date : timestamp)
           (chart_type price_column : string) (num_signals : Z)
           (signal_column_names : option (list string)) (title : string)
           (marker_symbols marker_colors : option loc)
           (candlestick_increasing_color candlestick_decreasing_color : string)
  : option (heap * outcome Figure) :=
  match validate df chart_type num_signals signal_column_names with
  | Raise e => Some (h, Raise e)
  | Return _ =>
      let df_filtered := loc_slice df start_date end_date in
      let marker_symbols := or_default marker_symbols default_symbols in
      let marker_colors := or_default marker_colors default_colors in
      match ensure_enough fuel num_signals h marker_symbols with
      | None => None
      | Some (h1, marker_symbols) =>
          match ensure_enough fuel num_signals h1 marker_colors with
          | None => None
          | Some (h2, marker_colors) =>
              Some (h2,
                    build_figure df_filtered chart_type price_column
                                 num_signals signal_column_names title
                                 (contents h2 marker_symbols)
                                 (contents h2 marker_colors)
                                 candlestick_increasing_color
                                 candlestick_decreasing_color)
          end
      end
  end.

(** * Vocabulary of the properties *)

(** The table passes the candlestick check of lines 54-59. *)
Definition ohlc_ok (df : DataFrame) (chart_type : string) : bool :=
  negb (String.eqb chart_type "candlestick") || is_empty (missing_cols df).

(** The signal configuration passes the checks of lines 61-65. *)
Definition names_ok (num_signals : Z) (names : option (list string)) : bool :=
  match names with
  | None => num_signals <=? 0
  | Some l => len l =? num_signals
  end.

(** The stamp lies in the inclusive range. *)
Definition in_range (start_date end_date t : timestamp) : bool :=
  (start_date <=? t) && (t <=? end_date).

(** The mask of the rows in range. *)
Definition range_mask (df : DataFrame) (start_date end_date : timestamp)
  : list bool :=
  map (in_range start_date end_date) (index df).

(** The list after [k] rounds of [xs.extend(xs)]. *)
Fixpoint doubled {A} (k : nat) (xs : list A) : list A :=
  match k with
  | O => xs
  | S k' => doubled k' (xs ++ xs)
  end.

(** [k] is the number of rounds the loop of lines 81-85 makes on [xs]:
    the first [k] at which the list covers [n] signals. *)
Definition min_doublings {A} (n : Z) (xs : list A) (k : nat) : Prop :=
  n <= len (doubled k xs) /\
  forall j, (j < k)%nat -> len (doubled j xs) < n.

(** The variable does not name the object at [l]. *)
Definition apart (v : listvar) (l : loc) : Prop :=
  match v with
  | Caller l' => l' <> l
  | Local _ => True
  end.

(** The marker list an argument stands for when the call starts. *)
Definition initial (h : heap) (arg : option loc) (default : list string)
  : list string :=
  contents h (or_default arg default).

(** Lines 74-85 end in store [h2] with the two lists [syms] and [cols]. *)
Definition markers_resolved (fuel : nat) (n : Z) (h : heap)
           (marker_symbols marker_colors : option loc)
           (h2 : heap) (syms cols : list string) : Prop :=
  exists h1 sv cv,
    ensure_enough fuel n h (or_default marker_symbols default_symbols)
    = Some (h1, sv) /\
    ensure_enough fuel n h1 (or_default marker_colors default_colors)
    = Some (h2, cv) /\
    syms = contents h2 sv /\ cols = contents h2 cv.

(** The argument is absent, or the list it names can cover [n] signals. *)
Definition can_cover (n : Z) (h : heap) (arg : option loc) : Prop :=
  match arg with
  | None => True
  | Some l => n <= 0 \/ h l <> []
  end.

Ltac split7 :=
  split; [|split; [|split; [|split; [|split; [|split]]]]].

(** The marker trace of lines 125-136. *)
Definition marker_trace (x : list timestamp) (y : list cell)
           (name color symbol : string) : trace :=
  Scatter x y "markers" name None
          (Some {| marker_color := color;
                   marker_symbol := symbol;
                   marker_size := 12;
                   marker_line := {| line_width := 1;
                                     line_color := Some "black" |} |}).

(** The price trace of lines 93-112. *)
Definition line_trace (x : list timestamp) (y : list cell)
           (price_column : string) : trace :=
  Scatter x y "lines" (capitalize price_column ++ " Price")
          (Some {| line_width := 2; line_color := None |}) None.

(** The chart type is supported and, for a candlestick chart, the table has
    the four columns: the checks of lines 51-59 let the call through. *)
Definition chart_accepted (df : DataFrame) (chart_type : string) : Prop :=
  chart_type = "line" \/
  (chart_type = "candlestick" /\ missing_cols df = []).

(** [can_cover] as a test. *)
Definition covers (n : Z) (h : heap) (arg : option loc) : bool :=
  match arg with
  | None => true
  | Some l => (n <=? 0) || negb (is_empty (h l))
  end.

(** The column exists in the table and is a boolean mask. *)
Definition is_mask (dff : DataFrame) (c : string) : bool :=
  match lookup_column (data dff) c with
  | Some vs => negb (is_none (as_mask vs))
  | None => false
  end.

Definition names_list (names : option (list string)) : list string :=
  match names with
  | Some l => l
  | None => []
  end.

(** Calls that reach [return fig]: the validation of lines 51-65 passes,
    a marker list the caller passes can cover the signal count, the price
    column exists where it is read (line 95 and line 122), and every signal
    column is a boolean column of the sliced table. *)
Definition valid_call (h : heap) (df : DataFrame)
           (start_date end_date : timestamp)
           (chart_type price_column : string) (num_signals : Z)
           (signal_column_names : option (list string))
           (marker_symbols marker_colors : option loc) : bool :=
  str_in chart_type ["line"; "candlestick"] &&
  ohlc_ok df chart_type &&
  names_ok num_signals signal_column_names &&
  covers num_signals h marker_symbols &&
  covers num_signals h marker_colors &&
  (negb (String.eqb chart_type "line" || (0 <? num_signals)) ||
   str_in price_column (columns df)) &&
  forallb (is_mask (loc_slice df start_date end_date))
          (names_list signal_column_names).

(** The rows (stamp, value) of a column whose stamp lies in the range, in
    table order. *)
Definition rows_in_range (start_date end_date : timestamp)
           (idx : list timestamp) (vs : list cell)
  : list (timestamp * cell) :=
  filter (fun r => in_range start_date end_date (fst r)) (combine idx vs).

Definition is_true (c : cell) : bool :=
  match c with
  | Flag true => true
  | _ => false
  end.

(** The points (stamp, price) of the rows in range on which the signal
    column is true, in table order. *)
Definition signal_points (start_date end_date : timestamp)
           (idx : list timestamp) (prices sig : list cell)
  : list (timestamp * cell) :=
  map fst
      (filter (fun r => in_range start_date end_date (fst (fst r)) &&
                        is_true (snd r))
              (combine (combine idx prices) sig)).

(** The stamps a trace is drawn at. *)
Definition stamps (t : trace) : list timestamp :=
  match t with
  | Scatter x _ _ _ _ _ => x
  | Candlestick x _ _ _ _ _ _ _ _ => x
  end.

(** Every series of the trace has one value per stamp. *)
Definition rectangular (t : trace) : Prop :=
  match t with
  | Scatter x y _ _ _ _ => length y = length x
  | Candlestick x o hi lo c _ _ _ _ =>
      length o = length x /\ length hi = length x /\
      length lo = length x /\ length c = length x
  end.

(** ** Sample inputs *)

(** Ten rows stamped 1..10 with a price column and one signal column. *)
Definition sample_table : DataFrame :=
  {| index := [1; 2; 3; 4; 5; 6; 7; 8; 9; 10];
     data := [("close",
               map Num [101; 102; 103; 104; 105; 106; 107; 108; 109; 110]);
              ("buy",
               map Flag [true; false; false; true; false;
                         true; false; false; true; false])] |}.

(** The same rows with the four candlestick columns. *)
Definition sample_ohlc : DataFrame :=
  {| index := index sample_table;
     data := [("open", map Num [100; 101; 102; 103; 104; 105; 106; 107; 108; 109]);
              ("high", map Num [102; 103; 104; 105; 106; 107; 108; 109; 110; 111]);
              ("low", map Num [99; 100; 101; 102; 103; 104; 105; 106; 107; 108])]
             ++ data sample_table |}.

(** The caller holds a two-entry list at 0 and an empty list at 1. *)
Definition sample_heap : heap :=
  fun l => match l with
           | O => ["circle"; "square"]
           | _ => []
           end.

(** A pandas that answers every key that is not boolean with IndexError. *)
Definition sample_pandas : pandas :=
  {| index_getitem := fun _ _ => Raise IndexError;
     series_getitem := fun _ _ _ => Raise IndexError |}.

(** The rows of [sample_table] with two more signal columns. *)
Definition signals_table : DataFrame :=
  {| index := index sample_table;
     data := data sample_table ++
             [("sell",
               map Flag [false; false; false; false; true;
                         false; true; false; false; false]);
              ("hold",
               map Flag [false; false; true; false; false;
                         false; false; true; false; false])] |}.

(** The caller holds two symbols at 0 and two colours at 1. *)
Definition styles_heap : heap :=
  fun l => match l with
           | O => ["circle"; "square"]
           | S O => ["blue"; "orange"]
           | _ => []
           end.

(** * Properties *)

(** ** Membership and the validation prefix *)

Lemma str_in_In (x : string) (xs : list string) :
  str_in x xs = true <-> In x xs.
Proof.
  induction xs as [|y ys IH]; simpl.
  - split; [discriminate | tauto].
  - rewrite orb_true_iff, IH, String.eqb_eq. split; intros [H|H]; auto.
Qed.

Lemma str_in_not_In (x : string) (xs : list string) :
  str_in x xs = false <-> ~ In x xs.
Proof.
  rewrite <- str_in_In. destruct (str_in x xs); split; intros; auto;
    try discriminate.
  exfalso; auto.
Qed.

Lemma supported_chart_type (chart_type : string) :
  str_in chart_type ["line"; "candlestick"] = true <->
  chart_type = "line" \/ chart_type = "candlestick".
Proof. rewrite str_in_In. simpl. intuition auto. Qed.

Lemma missing_cols_spec (df : DataFrame) (c : string) :
  In c (missing_cols df) <-> In c required_cols /\ ~ In c (columns df).
Proof.
  unfold missing_cols. rewrite filter_In, negb_true_iff, str_in_not_In.
  tauto.
Qed.

Lemma missing_cols_NoDup (df : DataFrame) : NoDup (missing_cols df).
Proof.
  unfold missing_cols. apply NoDup_filter. unfold required_cols.
  repeat constructor; simpl; intuition discriminate.
Qed.

Lemma validate_chart_type df chart_type n names :
  str_in chart_type ["line"; "candlestick"] = false ->
  validate df chart_type n names = Raise (ValueError BadChartType).
Proof. intros H. unfold validate. rewrite H. reflexivity. Qed.

Lemma validate_missing df n names :
  missing_cols df <> [] ->
  validate df "candlestick" n names =
  Raise (ValueError (MissingCols required_cols (missing_cols df))).
Proof.
  intros H. unfold validate. simpl.
  destruct (missing_cols df); [congruence | reflexivity].
Qed.

(** Once the chart type and the columns are accepted, only the signal
    checks are left. *)
Lemma validate_signals df chart_type n names :
  str_in chart_type ["line"; "candlestick"] = true ->
  ohlc_ok df chart_type = true ->
  validate df chart_type n names =
  match names with
  | None => if 0 <? n then Raise (ValueError NamesNotProvided) else Return tt
  | Some l =>
      if len l =? n then Return tt
      else Raise (ValueError (NamesLengthMismatch (length l) n))
  end.
Proof.
  intros Hc Ho. unfold validate. rewrite Hc. simpl.
  unfold ohlc_ok in Ho.
  destruct (String.eqb chart_type "candlestick"); simpl in *.
  - rewrite Ho. simpl. destruct names as [l|]; simpl.
    + rewrite andb_false_r. simpl. destruct (len l =? n); reflexivity.
    + rewrite andb_true_r. destruct (0 <? n); reflexivity.
  - destruct names as [l|]; simpl.
    + rewrite andb_false_r. simpl. destruct (len l =? n); reflexivity.
    + rewrite andb_true_r. destruct (0 <? n); reflexivity.
Qed.

Lemma validate_Return df chart_type n names :
  validate df chart_type n names = Return tt <->
  str_in chart_type ["line"; "candlestick"] = true /\
  ohlc_ok df chart_type = true /\ names_ok n names = true.
Proof.
  destruct (str_in chart_type ["line"; "candlestick"]) eqn:Hc.
  2:{ rewrite validate_chart_type by assumption.
      split; [discriminate | intros [? _]; discriminate]. }
  destruct (ohlc_ok df chart_type) eqn:Ho.
  - rewrite validate_signals by assumption. unfold names_ok.
    destruct names as [l|].
    + destruct (len l =? n); split; try tauto; try discriminate.
      intros (_ & _ & ?); discriminate.
    + rewrite Z.leb_antisym. destruct (0 <? n); simpl; split; try tauto;
        try discriminate. intros (_ & _ & ?); discriminate.
  - split; [|intros (_ & ? & _); discriminate].
    unfold validate. rewrite Hc. simpl. unfold ohlc_ok in Ho.
    apply orb_false_iff in Ho as [Ho1 Ho2].
    apply negb_false_iff in Ho1. rewrite Ho1, Ho2. discriminate.
Qed.

(** ** Masks, slices and the date range *)

Lemma select_nil_r {A} (m : list bool) : select m (@nil A) = [].
Proof. destruct m as [|[] m]; reflexivity. Qed.

Lemma select_all_false {A} (m : list bool) (xs : list A) :
  Forall (fun b => b = false) m -> select m xs = [].
Proof.
  intros H. revert xs. induction H as [|b m Hb _ IH]; intros [|x xs];
    simpl; auto.
  subst b. apply IH.
Qed.

Lemma select_map_filter {A} (f : A -> bool) (xs : list A) :
  select (map f xs) xs = filter f xs.
Proof.
  induction xs as [|x xs IH]; simpl; auto.
  destruct (f x); rewrite IH; reflexivity.
Qed.

Lemma select_combine {A B} (m : list bool) (xs : list A) (ys : list B) :
  select m (combine xs ys) = combine (select m xs) (select m ys).
Proof.
  revert xs ys. induction m as [|b m IH]; intros xs ys.
  - destruct xs, ys; reflexivity.
  - destruct xs as [|x xs]; [reflexivity|].
    destruct ys as [|y ys].
    + simpl. destruct b; simpl; rewrite ?select_nil_r;
        destruct (select m xs); reflexivity.
    + simpl. destruct b; simpl; rewrite IH; reflexivity.
Qed.

Lemma map_fst_combine {A B} (xs : list A) (ys : list B) :
  length xs = length ys -> map fst (combine xs ys) = xs.
Proof.
  revert ys. induction xs as [|x xs IH]; intros [|y ys] H; simpl in *;
    try discriminate; auto.
  f_equal. apply IH. lia.
Qed.

(** Selecting rows by a test on the stamp, column by column, is filtering
    the rows. *)
Lemma select_rows {A} (p : timestamp -> bool) (ts : list timestamp)
      (vs : list A) :
  length vs = length ts ->
  combine (select (map p ts) ts) (select (map p ts) vs) =
  filter (fun r => p (fst r)) (combine ts vs).
Proof.
  intros H. rewrite <- select_combine, <- select_map_filter.
  f_equal. rewrite <- (map_fst_combine ts vs) at 1 by lia.
  rewrite map_map. reflexivity.
Qed.

Lemma ascending_tail t r : ascending (t :: r) = true -> ascending r = true.
Proof.
  destruct r as [|u r]; [reflexivity|].
  cbn [ascending]. intros H. apply andb_true_iff in H. tauto.
Qed.

Lemma ascending_head t r :
  ascending (t :: r) = true -> Forall (fun u => t <= u) r.
Proof.
  revert t. induction r as [|u r IH]; intros t H; constructor.
  - cbn [ascending] in H. apply andb_true_iff in H as [H _]. lia.
  - cbn [ascending] in H. apply andb_true_iff in H as [H1 H2].
    apply Z.leb_le in H1. specialize (IH u H2).
    eapply Forall_impl; [|exact IH]. simpl. intros. lia.
Qed.

Lemma ascending_Sorted ts : ascending ts = true <-> Sorted Z.le ts.
Proof.
  induction ts as [|t r IH].
  - split; [constructor | reflexivity].
  - split; intros H.
    + constructor; [apply IH, (ascending_tail t), H|].
      destruct r as [|u r]; constructor.
      cbn [ascending] in H. apply andb_true_iff in H as [H _]. lia.
    + inversion H as [|? ? Hs Hh]; subst.
      destruct r as [|u r]; [reflexivity|]. cbn [ascending].
      inversion Hh; subst. apply andb_true_iff. split; [lia|].
      apply IH, Hs.
Qed.

Lemma out_of_range_after e s ts :
  Forall (fun u => e < u) ts ->
  Forall (fun b => b = false) (map (in_range s e) ts).
Proof.
  intros H. apply Forall_map. eapply Forall_impl; [|exact H].
  simpl. intros u Hu. unfold in_range. apply andb_false_iff. right. lia.
Qed.

(** Past the start of the range, the rows up to the search position of the
    end are the rows in range. *)
Lemma firstn_searchsorted {A} s e (ts : list timestamp) (xs : list A) :
  ascending ts = true ->
  Forall (fun u => s <= u) ts ->
  firstn (searchsorted (fun t => t <=? e) ts) xs =
  select (map (in_range s e) ts) xs.
Proof.
  revert xs. induction ts as [|t r IH]; intros xs Ha Hs.
  - destruct xs; reflexivity.
  - inversion Hs as [|? ? Hst Hsr]; subst.
    destruct xs as [|x xs].
    { rewrite firstn_nil, select_nil_r. reflexivity. }
    cbn [searchsorted map select]. unfold in_range at 1.
    replace (s <=? t) with true by (symmetry; lia).
    destruct (t <=? e) eqn:He; simpl.
    + f_equal. apply IH; [apply (ascending_tail t), Ha | exact Hsr].
    + symmetry. apply select_all_false, out_of_range_after.
      eapply Forall_impl; [|apply ascending_head, Ha]. simpl. intros. lia.
Qed.

(** On an ascending index the block of rows between the two search positions
    is exactly the set of rows whose stamp is in range. *)
Lemma slice_select {A} s e (ts : list timestamp) (xs : list A) :
  ascending ts = true ->
  slice (searchsorted (fun t => t <? s) ts)
        (searchsorted (fun t => t <=? e) ts) xs =
  select (map (in_range s e) ts) xs.
Proof.
  revert xs. induction ts as [|t r IH]; intros xs Ha.
  - unfold slice. destruct xs; reflexivity.
  - destruct (t <? s) eqn:Hs.
    + cbn [searchsorted map]. rewrite Hs. unfold in_range at 1.
      replace (s <=? t) with false by (symmetry; lia). cbn [andb].
      destruct xs as [|x xs].
      { unfold slice. rewrite skipn_nil, firstn_nil, select_nil_r.
        reflexivity. }
      cbn [select]. destruct (t <=? e) eqn:He.
      * unfold slice. cbn [Nat.sub skipn].
        apply (IH xs), (ascending_tail t), Ha.
      * unfold slice. cbn [Nat.sub firstn]. symmetry.
        apply select_all_false, out_of_range_after.
        eapply Forall_impl; [|apply ascending_head, Ha]. simpl. intros. lia.
    + unfold slice.
      replace (searchsorted (fun u => u <? s) (t :: r)) with O
        by (cbn [searchsorted]; rewrite Hs; reflexivity).
      rewrite Nat.sub_0_r. cbn [skipn].
      apply firstn_searchsorted; [exact Ha|].
      constructor; [lia|].
      eapply Forall_impl; [|apply ascending_head, Ha]. simpl. intros. lia.
Qed.

Lemma lookup_column_map (f : list cell -> list cell) cols c :
  lookup_column (map (fun '(name, vs) => (name, f vs)) cols) c =
  option_map f (lookup_column cols c).
Proof.
  induction cols as [|[name vs] rest IH]; simpl; auto.
  destruct (String.eqb c name); auto.
Qed.

Lemma lookup_column_In cols c vs :
  lookup_column cols c = Some vs -> In (c, vs) cols.
Proof.
  induction cols as [|[name ws] rest IH]; simpl; [discriminate|].
  destruct (String.eqb c name) eqn:E.
  - apply String.eqb_eq in E. intros [= ->]. left. congruence.
  - auto.
Qed.

Lemma lookup_column_Some cols c :
  str_in c (map fst cols) = true <-> exists vs, lookup_column cols c = Some vs.
Proof.
  induction cols as [|[name ws] rest IH]; simpl.
  - split; [discriminate | intros [? ?]; discriminate].
  - destruct (String.eqb c name); simpl; [|exact IH].
    split; eauto.
Qed.

(** What a well-formed table guarantees. *)
Lemma well_formed_ascending df : well_formed df = true -> ascending (index df) = true.
Proof. unfold well_formed. intros H. apply andb_true_iff in H. tauto. Qed.

Lemma well_formed_length df c vs :
  well_formed df = true ->
  lookup_column (data df) c = Some vs -> length vs = length (index df).
Proof.
  unfold well_formed. intros H Hl. apply andb_true_iff in H as [_ H].
  rewrite forallb_forall in H. apply lookup_column_In in Hl.
  specialize (H _ Hl). simpl in H. apply Nat.eqb_eq, H.
Qed.

Lemma loc_slice_index df s e :
  ascending (index df) = true ->
  index (loc_slice df s e) = filter (in_range s e) (index df).
Proof.
  intros Ha. unfold loc_slice. cbn [index].
  rewrite slice_select by assumption. apply select_map_filter.
Qed.

Lemma loc_slice_column df s e c :
  ascending (index df) = true ->
  lookup_column (data (loc_slice df s e)) c =
  option_map (select (range_mask df s e)) (lookup_column (data df) c).
Proof.
  intros Ha. unfold loc_slice. cbn [data].
  rewrite lookup_column_map.
  destruct (lookup_column (data df) c); simpl; auto.
  f_equal. apply slice_select, Ha.
Qed.

Lemma loc_slice_columns df s e : columns (loc_slice df s e) = columns df.
Proof.
  unfold columns, loc_slice. cbn [data]. rewrite map_map.
  apply map_ext. intros [? ?]. reflexivity.
Qed.

(** ** Extending a marker list by doubling *)

Lemma doubled_length {A} k (xs : list A) :
  length (doubled k xs) = (2 ^ k * length xs)%nat.
Proof.
  revert xs. induction k as [|k IH]; intros xs; cbn [doubled].
  - simpl. lia.
  - rewrite IH, length_app, Nat.pow_succ_r'. lia.
Qed.

Lemma doubled_nil {A} k : doubled k (@nil A) = [].
Proof. induction k; simpl; auto. Qed.

Lemma doubled_not_nil {A} k (xs : list A) : xs <> [] -> doubled k xs <> [].
Proof.
  intros H E. apply (f_equal (@length A)) in E.
  rewrite doubled_length in E. simpl in E.
  destruct xs; [congruence|]. simpl in E.
  pose proof (Nat.pow_nonzero 2 k). nia.
Qed.

Lemma repeat_twice {A} (xs : list A) n :
  concat (repeat (xs ++ xs)%list n) = concat (repeat xs (2 * n)).
Proof.
  induction n as [|n IH]; [reflexivity|].
  replace (2 * S n)%nat with (S (S (2 * n))) by lia.
  cbn [repeat concat]. rewrite IH, app_assoc. reflexivity.
Qed.

(** Doubling [k] times is writing the list [2 ^ k] times in a row: nothing
    is cut off. *)
Lemma doubled_repeat {A} k (xs : list A) :
  doubled k xs = concat (repeat xs (2 ^ k)).
Proof.
  revert xs. induction k as [|k IH]; intros xs; cbn [doubled].
  - simpl. rewrite app_nil_r. reflexivity.
  - rewrite IH, repeat_twice, Nat.pow_succ_r'. reflexivity.
Qed.

Lemma nth_error_cycle {A} (xs : list A) n j :
  (j < n * length xs)%nat ->
  nth_error (concat (repeat xs n)) j = nth_error xs (j mod length xs).
Proof.
  revert j. induction n as [|n IH]; intros j Hj; [lia|].
  cbn [repeat concat].
  destruct (Nat.lt_ge_cases j (length xs)) as [Hlt|Hge].
  - rewrite nth_error_app1 by assumption.
    rewrite Nat.mod_small by assumption. reflexivity.
  - rewrite nth_error_app2 by assumption.
    rewrite IH by lia. f_equal.
    replace j with ((j - length xs) + 1 * length xs)%nat at 2 by lia.
    rewrite Nat.Div0.mod_add. reflexivity.
Qed.

(** The extended list is the original one, cycled. *)
Lemma doubled_nth_error {A} k (xs : list A) j :
  (j < length (doubled k xs))%nat ->
  nth_error (doubled k xs) j = nth_error xs (j mod length xs).
Proof.
  intros Hj. rewrite doubled_length in Hj.
  rewrite doubled_repeat. apply nth_error_cycle, Hj.
Qed.

Lemma min_doublings_unique {A} n (xs : list A) k k' :
  min_doublings n xs k -> min_doublings n xs k' -> k = k'.
Proof.
  intros [H1 H2] [H1' H2'].
  destruct (Nat.lt_trichotomy k k') as [H|[H|H]]; auto.
  - specialize (H2' _ H). lia.
  - specialize (H2 _ H). lia.
Qed.

Lemma min_doublings_0 {A} n (xs : list A) k :
  n <= len xs -> min_doublings n xs k -> k = O.
Proof.
  intros H [_ Hk]. destruct k; auto.
  specialize (Hk O ltac:(lia)). simpl in Hk. lia.
Qed.

Lemma contents_extend_self h v :
  contents (fst (extend_self h v)) (snd (extend_self h v)) =
  (contents h v ++ contents h v)%list.
Proof.
  destruct v as [l|xs]; simpl; auto.
  unfold store. rewrite Nat.eqb_refl. reflexivity.
Qed.

(** The loop on a list that can never cover the count: an empty list stays
    empty under [extend], so no amount of fuel ends the loop. *)
Lemma ensure_enough_diverges fuel n h v :
  contents h v = [] -> 0 < n -> ensure_enough fuel n h v = None.
Proof.
  revert h v. induction fuel as [|fuel IH]; intros h v He Hn;
    cbn [ensure_enough]; rewrite He; unfold len; simpl;
    replace (0 <? n) with true by (symmetry; lia); auto.
  pose proof (contents_extend_self h v) as Hc. rewrite He in Hc.
  destruct (extend_self h v) as [h' v']. apply IH; auto.
Qed.

Lemma extend_self_frame h v l :
  apart v l -> fst (extend_self h v) l = h l.
Proof.
  destruct v as [l'|xs]; simpl; auto. intros H. unfold store.
  destruct (Nat.eqb l l') eqn:E; auto. apply Nat.eqb_eq in E. congruence.
Qed.

(** What the loop does when it ends: it made the least number of doublings
    that covers the count, on the object the variable names, and touched
    nothing else. *)
Lemma ensure_enough_Some fuel n h v h' v' :
  ensure_enough fuel n h v = Some (h', v') ->
  exists k,
    min_doublings n (contents h v) k /\
    contents h' v' = doubled k (contents h v) /\
    (k = O -> h' = h /\ v' = v) /\
    (forall l, apart v l -> h' l = h l) /\
    match v with
    | Caller l => v' = Caller l
    | Local _ => h' = h /\ exists ys, v' = Local ys
    end.
Proof.
  revert h v. induction fuel as [|fuel IH]; intros h v;
    cbn [ensure_enough]; destruct (len (contents h v) <? n) eqn:E;
    try discriminate.
  1,3: intros [= <- <-]; exists O; repeat split; simpl; auto;
    try lia; destruct v; eauto.
  intros H. destruct v as [l0|xs]; cbn [extend_self] in H;
    apply IH in H as (k & [Hk1 Hk2] & Hd & _ & Hfr & Hvar);
    cbn [contents] in *; exists (S k); cbn [doubled].
  - unfold store in Hk1, Hk2, Hd. rewrite Nat.eqb_refl in Hk1, Hk2, Hd.
    split; [split; [exact Hk1|] |].
    { intros j Hj. destruct j as [|j]; [simpl; lia|].
      cbn [doubled]. apply Hk2. lia. }
    split; [exact Hd|]. split; [discriminate|]. split; [|exact Hvar].
    intros l Hl. rewrite (Hfr l Hl). unfold store.
    destruct (Nat.eqb l l0) eqn:El; auto.
    apply Nat.eqb_eq in El. simpl in Hl. congruence.
  - split; [split; [exact Hk1|] |].
    { intros j Hj. destruct j as [|j]; [simpl; lia|].
      cbn [doubled]. apply Hk2. lia. }
    split; [exact Hd|]. split; [discriminate|]. split; [|exact Hvar].
    intros l _. apply Hfr. exact I.
Qed.

(** A list that is not empty is long enough after at most [n] doublings. *)
Lemma ensure_enough_terminates fuel n h v :
  n <= 0 \/ contents h v <> [] ->
  (Z.to_nat (n - len (contents h v)) <= fuel)%nat ->
  exists r, ensure_enough fuel n h v = Some r.
Proof.
  revert h v. induction fuel as [|fuel IH]; intros h v Hok Hfuel;
    cbn [ensure_enough]; destruct (len (contents h v) <? n) eqn:E;
    eauto.
  - apply Z.ltb_lt in E. lia.
  - apply Z.ltb_lt in E.
    pose proof (contents_extend_self h v) as Hc.
    destruct (extend_self h v) as [h1 v1]. cbn [fst snd] in Hc.
    assert (Hne : contents h v <> []).
    { destruct Hok as [Hok|Hok]; auto. unfold len in E. lia. }
    apply IH.
    + right. rewrite Hc. intros Happ. apply app_eq_nil in Happ. tauto.
    + rewrite Hc. unfold len in *. rewrite length_app.
      destruct (contents h v); [congruence|]. simpl length in *. lia.
Qed.

Lemma can_cover_initial n h arg default :
  default <> [] -> can_cover n h arg ->
  n <= 0 \/ initial h arg default <> [].
Proof. destruct arg; simpl; auto. Qed.

Lemma default_symbols_length : length default_symbols = 7%nat.
Proof. reflexivity. Qed.

Lemma default_colors_length : length default_colors = 7%nat.
Proof. reflexivity. Qed.

(** Both loops end and leave each list doubled the least number of times;
    objects the call was not given are as they were. *)
Lemma markers_resolved_spec fuel n h msyms mcols h2 syms cols :
  markers_resolved fuel n h msyms mcols h2 syms cols ->
  exists ks kc,
    min_doublings n (initial h msyms default_symbols) ks /\
    syms = doubled ks (initial h msyms default_symbols) /\
    min_doublings n (initial h mcols default_colors) kc /\
    cols = doubled kc (initial h mcols default_colors) /\
    (forall l, msyms <> Some l -> mcols <> Some l -> h2 l = h l) /\
    (forall l, msyms = Some l -> h2 l = syms) /\
    (forall l, mcols = Some l -> h2 l = cols).
Proof.
  intros (h1 & sv & cv & E1 & E2 & -> & ->).
  apply ensure_enough_Some in E1 as (k1 & M1 & C1 & _ & F1 & V1).
  apply ensure_enough_Some in E2 as (k2 & M2 & C2 & Z2 & F2 & V2).
  unfold initial.
  destruct msyms as [l1|]; destruct mcols as [l2|]; cbn [or_default] in *.
  - subst sv cv. cbn [contents] in *.
    destruct (Nat.eq_dec l1 l2) as [->|Hne].
    + assert (k2 = O) as -> by
          (eapply min_doublings_0; [|exact M2]; rewrite C1; apply M1).
      destruct (Z2 eq_refl) as [-> _]. cbn [doubled] in C2.
      exists k1, k1. split7; auto.
      * intros l H _. apply F1. simpl. congruence.
      * intros l [= ->]. reflexivity.
      * intros l [= ->]. reflexivity.
    + assert (Hl2 : h1 l2 = h l2) by (apply F1; simpl; congruence).
      assert (Hl1 : h2 l1 = h1 l1) by (apply F2; simpl; congruence).
      rewrite Hl2 in *. exists k1, k2. split7; auto; try congruence.
      intros l Ha Hb. rewrite F2, F1; simpl; congruence.
  - subst sv. destruct V2 as [-> [ys ->]]. cbn [contents] in *.
    exists k1, k2. split7; auto; try discriminate.
    + intros l H _. apply F1. simpl. congruence.
    + intros l [= ->]. reflexivity.
  - subst cv. destruct V1 as [-> [ys ->]]. cbn [contents] in *.
    exists k1, k2. split7; auto; try discriminate.
    + intros l _ H. apply F2. simpl. congruence.
    + intros l [= ->]. reflexivity.
  - destruct V1 as [-> [ys ->]]. destruct V2 as [-> [zs ->]].
    cbn [contents] in *.
    exists k1, k2. split7; auto; discriminate.
Qed.

(** With lists that can cover the count, [n] rounds of fuel are enough for
    both loops. *)
Lemma markers_resolved_total fuel n h msyms mcols :
  can_cover n h msyms -> can_cover n h mcols ->
  (Z.to_nat n <= fuel)%nat ->
  exists h2 syms cols, markers_resolved fuel n h msyms mcols h2 syms cols.
Proof.
  intros Hs Hc Hfuel.
  destruct (ensure_enough_terminates fuel n h
              (or_default msyms default_symbols)) as [[h1 sv] E1].
  { apply can_cover_initial; [discriminate | exact Hs]. }
  { unfold len. lia. }
  destruct (ensure_enough_terminates fuel n h1
              (or_default mcols default_colors)) as [[h2 cv] E2].
  { destruct mcols as [l2|]; [|right; discriminate]. cbn [or_default contents].
    destruct Hc as [Hc|Hc]; [left; exact Hc|].
    apply ensure_enough_Some in E1 as (k1 & M1 & C1 & _ & F1 & V1).
    destruct msyms as [l1|]; cbn [or_default] in *.
    - subst sv. cbn [contents] in *.
      destruct (Nat.eq_dec l1 l2) as [->|Hne].
      + right. rewrite C1. apply doubled_not_nil, Hc.
      + right. rewrite F1 by (simpl; congruence). exact Hc.
    - destruct V1 as [-> _]. right. exact Hc. }
  { unfold len. lia. }
  exists h2, (contents h2 sv), (contents h2 cv), h1, sv, cv. auto.
Qed.

Lemma call_resolved fuel h df s e chart_type price_column n names title
      msyms mcols inc dec h2 syms cols :
  validate df chart_type n names = Return tt ->
  markers_resolved fuel n h msyms mcols h2 syms cols ->
  equity_chart_with_signals fuel h df s e chart_type price_column n names
                            title msyms mcols inc dec =
  Some (h2, build_figure (loc_slice df s e) chart_type price_column n names
                         title syms cols inc dec).
Proof.
  intros Hv (h1 & sv & cv & E1 & E2 & -> & ->).
  unfold equity_chart_with_signals. rewrite Hv, E1, E2. reflexivity.
Qed.

Lemma call_Some fuel h df s e chart_type price_column n names title
      msyms mcols inc dec h' out :
  equity_chart_with_signals fuel h df s e chart_type price_column n names
                            title msyms mcols inc dec = Some (h', out) ->
  (exists e', validate df chart_type n names = Raise e' /\
              h' = h /\ out = Raise e') \/
  (validate df chart_type n names = Return tt /\
   exists syms cols,
     markers_resolved fuel n h msyms mcols h' syms cols /\
     out = build_figure (loc_slice df s e) chart_type price_column n names
                        title syms cols inc dec).
Proof.
  unfold equity_chart_with_signals.
  destruct (validate df chart_type n names) as [[]|e'] eqn:Hv.
  - destruct (ensure_enough fuel n h _) as [[h1 sv]|] eqn:E1;
      [|discriminate].
    destruct (ensure_enough fuel n h1 _) as [[h2 cv]|] eqn:E2;
      [|discriminate].
    intros [= <- <-]. right. split; auto.
    exists (contents h2 sv), (contents h2 cv). split; auto.
    exists h1, sv, cv. auto.
  - intros [= <- <-]. left. eauto.
Qed.

(** ** Building the traces *)

Lemma bind_Return {A B} (c : outcome A) (k : A -> outcome B) b :
  bind c k = Return b <-> exists a, c = Return a /\ k a = Return b.
Proof.
  destruct c as [a|e]; simpl; split; eauto.
  - intros (a' & [= <-] & H). exact H.
  - discriminate.
  - intros (a' & [=] & _).
Qed.

Lemma for_from_Return {A} (body : Z -> outcome A) i k ts :
  for_from body i k = Return ts ->
  length ts = k /\
  forall j, (j < k)%nat ->
            exists t, nth_error ts j = Some t /\
                      body (i + Z.of_nat j) = Return t.
Proof.
  revert i ts. induction k as [|k IH]; intros i ts; cbn [for_from].
  - intros [= <-]. split; [reflexivity | intros j Hj; lia].
  - intros H. apply bind_Return in H as (t & Ht & H).
    apply bind_Return in H as (ts' & Hts & [= <-]).
    apply IH in Hts as [Hlen Hnth]. split; [simpl; lia|].
    intros [|j] Hj.
    + exists t. rewrite Z.add_0_r. auto.
    + destruct (Hnth j ltac:(lia)) as (t' & H1 & H2).
      exists t'. split; [exact H1|]. rewrite <- H2. f_equal. lia.
Qed.

Lemma for_from_total {A} (body : Z -> outcome A) i k :
  (forall j, (j < k)%nat -> exists t, body (i + Z.of_nat j) = Return t) ->
  exists ts, for_from body i k = Return ts.
Proof.
  revert i. induction k as [|k IH]; intros i H; cbn [for_from]; eauto.
  destruct (H O ltac:(lia)) as [t Ht]. rewrite Z.add_0_r in Ht.
  destruct (IH (i + 1)) as [ts Hts].
  { intros j Hj. destruct (H (S j) ltac:(lia)) as [t' Ht'].
    exists t'. rewrite <- Ht'. f_equal. lia. }
  rewrite Ht, Hts. simpl. eauto.
Qed.

(** The first round of a loop that raises decides the exception. *)
Lemma for_from_Raise {A} (body : Z -> outcome A) i k e :
  for_from body i k = Raise e ->
  exists j, (j < k)%nat /\ body (i + Z.of_nat j) = Raise e.
Proof.
  revert i. induction k as [|k IH]; intros i; cbn [for_from];
    [discriminate|].
  destruct (body i) as [t|e'] eqn:Hb; simpl.
  - destruct (for_from body (i + 1) k) as [ts|e''] eqn:Hf; simpl;
      [discriminate|].
    intros [= ->]. destruct (IH _ Hf) as (j & Hj & H).
    exists (S j). split; [lia|]. rewrite <- H. f_equal. lia.
  - intros [= ->]. exists O. rewrite Z.add_0_r. split; [lia | exact Hb].
Qed.

Lemma py_getitem_Return {A} (xs : list A) i :
  0 <= i ->
  forall x, py_getitem xs i = Return x <-> nth_error xs (Z.to_nat i) = Some x.
Proof.
  intros Hi x. unfold py_getitem.
  replace (i <? 0) with false by (symmetry; lia).
  replace (i <? 0) with false by (symmetry; lia).
  destruct (nth_error xs (Z.to_nat i)); split; congruence.
Qed.

(** Entry [i] of the extended list is entry [i mod length] of the list the
    loop started from. *)
Lemma cycle_entry {A} (xs : list A) k n i c :
  n <= len (doubled k xs) -> 0 <= i < n ->
  py_getitem (doubled k xs) (i mod len (doubled k xs)) = Return c ->
  nth_error xs (Z.to_nat (i mod len xs)) = Some c.
Proof.
  intros Hn Hi Hget.
  rewrite Z.mod_small in Hget by lia.
  apply py_getitem_Return in Hget; [|lia].
  rewrite doubled_nth_error in Hget.
  - unfold len. rewrite Z2Nat.inj_mod by lia. rewrite Nat2Z.id. exact Hget.
  - unfold len in Hn. lia.
Qed.

(** Indexing with wraparound never leaves a list that is not empty. *)
Lemma wraparound_in_range {A} (xs : list A) i :
  xs <> [] -> 0 <= i ->
  exists x, py_mod i (len xs) = Return (i mod len xs) /\
            py_getitem xs (i mod len xs) = Return x.
Proof.
  intros Hne Hi. unfold py_mod, len.
  assert (0 < length xs)%nat by (destruct xs; [congruence | simpl; lia]).
  replace (Z.of_nat (length xs) =? 0) with false by (symmetry; lia).
  pose proof (Z.mod_pos_bound i (Z.of_nat (length xs)) ltac:(lia)) as Hb.
  destruct (nth_error xs (Z.to_nat (i mod Z.of_nat (length xs)))) as [x|]
    eqn:E.
  - exists x. split; auto. apply py_getitem_Return; [lia | exact E].
  - apply nth_error_None in E. lia.
Qed.

Lemma signal_trace_Return dff price_column names syms cols i t :
  signal_trace dff price_column names syms cols i = Return t ->
  exists signal_col sig prices x y color symbol,
    opt_getitem names i = Return signal_col /\
    lookup_column (data dff) signal_col = Some sig /\
    index_at pd (index dff) sig = Return x /\
    lookup_column (data dff) price_column = Some prices /\
    series_at pd (index dff) prices sig = Return y /\
    len cols <> 0 /\ py_getitem cols (i mod len cols) = Return color /\
    len syms <> 0 /\ py_getitem syms (i mod len syms) = Return symbol /\
    t = marker_trace x y signal_col color symbol.
Proof.
  unfold signal_trace, df_getitem, py_mod. intros H.
  apply bind_Return in H as (signal_col & Hn & H).
  destruct (lookup_column (data dff) signal_col) as [sig|] eqn:Hs;
    [|discriminate]. cbn [bind] in H.
  apply bind_Return in H as (x & Hx & H).
  destruct (lookup_column (data dff) price_column) as [prices|] eqn:Hp;
    [|discriminate]. cbn [bind] in H.
  apply bind_Return in H as (y & Hy & H).
  destruct (len cols =? 0) eqn:Hc; [discriminate|]. cbn [bind] in H.
  apply bind_Return in H as (color & Hcol & H).
  destruct (len syms =? 0) eqn:Hy'; [discriminate|]. cbn [bind] in H.
  apply bind_Return in H as (symbol & Hsym & [= <-]).
  exists signal_col, sig, prices, x, y, color, symbol.
  repeat split; auto; lia.
Qed.

Lemma signal_trace_total dff price_column names syms cols i
      signal_col sig mask prices :
  0 <= i -> syms <> [] -> cols <> [] ->
  opt_getitem names i = Return signal_col ->
  lookup_column (data dff) signal_col = Some sig ->
  as_mask sig = Some mask ->
  lookup_column (data dff) price_column = Some prices ->
  exists t, signal_trace dff price_column names syms cols i = Return t.
Proof.
  intros Hi Hs Hc Hn Hsig Hm Hp.
  destruct (wraparound_in_range cols i Hc Hi) as (color & Hc1 & Hc2).
  destruct (wraparound_in_range syms i Hs Hi) as (symbol & Hs1 & Hs2).
  unfold signal_trace, df_getitem, index_at, series_at.
  rewrite Hn. cbn [bind]. rewrite Hsig. cbn [bind]. rewrite Hm.
  cbn [bind]. rewrite Hp. cbn [bind]. rewrite Hc1. cbn [bind].
  rewrite Hc2. cbn [bind]. rewrite Hs1. cbn [bind]. rewrite Hs2.
  cbn [bind]. eauto.
Qed.

Lemma price_trace_line dff price_column inc dec :
  price_trace dff "line" price_column inc dec =
  y <- df_getitem dff price_column ;;
  Return (line_trace (index dff) y price_column).
Proof. reflexivity. Qed.

Lemma price_trace_candlestick dff price_column inc dec :
  price_trace dff "candlestick" price_column inc dec =
  o <- df_getitem dff "open" ;;
  h <- df_getitem dff "high" ;;
  l <- df_getitem dff "low" ;;
  c <- df_getitem dff "close" ;;
  Return (Candlestick (index dff) o h l c "OHLC" inc dec (9 # 10)%Q).
Proof. reflexivity. Qed.

Lemma no_missing_cols df :
  missing_cols df = [] ->
  forall c, In c required_cols -> str_in c (columns df) = true.
Proof.
  intros H c Hc. destruct (str_in c (columns df)) eqn:E; auto.
  assert (In c (missing_cols df))
    by (apply missing_cols_spec; split; [exact Hc | apply str_in_not_In, E]).
  rewrite H in *. contradiction.
Qed.

(** ** Validation errors *)

(** C8.  A chart type other than 'line' and 'candlestick' makes the call
    fail with InvalidChartType.  Nothing else is looked at before: the
    result is the same for every table, every other argument and every
    amount of fuel, and the caller's store is returned as it was. *)
Theorem invalid_chart_type_rejected
        fuel h df s e chart_type price_column n names title msyms mcols
        inc dec :
  chart_type <> "line" -> chart_type <> "candlestick" ->
  equity_chart_with_signals fuel h df s e chart_type price_column n names
                            title msyms mcols inc dec
  = Some (h, Raise (ValueError BadChartType)) /\
  InvalidChartType (ValueError BadChartType).
Proof.
  intros H1 H2. split; [|reflexivity].
  unfold equity_chart_with_signals. rewrite validate_chart_type; auto.
  destruct (str_in chart_type ["line"; "candlestick"]) eqn:E; auto.
  apply supported_chart_type in E. tauto.
Qed.

(** C5.  In candlestick mode a table that lacks one of open, high, low,
    close makes the call fail with MissingColumns, and the columns the
    message lists are exactly the required ones that the table lacks. *)
Theorem missing_ohlc_columns_reported
        fuel h df s e price_column n names title msyms mcols inc dec :
  (exists c, In c ["open"; "high"; "low"; "close"] /\ ~ In c (columns df)) ->
  exists missing e',
    equity_chart_with_signals fuel h df s e "candlestick" price_column n
                              names title msyms mcols inc dec
    = Some (h, Raise e') /\
    MissingColumns missing e' /\
    NoDup missing /\
    forall c, In c missing <->
              In c ["open"; "high"; "low"; "close"] /\ ~ In c (columns df).
Proof.
  intros (c & Hc & Hn).
  exists (missing_cols df),
    (ValueError (MissingCols required_cols (missing_cols df))).
  split; [|split; [|split]].
  - unfold equity_chart_with_signals. rewrite validate_missing; auto.
    intros E. assert (In c (missing_cols df)) by (apply missing_cols_spec; auto).
    rewrite E in *. contradiction.
  - exists required_cols. reflexivity.
  - apply missing_cols_NoDup.
  - apply missing_cols_spec.
Qed.

Lemma chart_accepted_spec df chart_type :
  chart_accepted df chart_type <->
  str_in chart_type ["line"; "candlestick"] = true /\
  ohlc_ok df chart_type = true.
Proof.
  unfold chart_accepted, ohlc_ok. rewrite supported_chart_type. split.
  - intros [->|[-> H]]; [simpl; auto|]. rewrite H. simpl. auto.
  - intros [[-> | ->] H]; [left; reflexivity|]. right. split; auto.
    simpl in H. destruct (missing_cols df); [reflexivity|discriminate].
Qed.

(** C4, as the code has it.  Once the chart type and the candlestick
    columns are accepted, a positive signal count with the names absent, or
    with a name list of another length, makes the call fail with
    SignalConfigMismatch; no trace is built and the store is untouched. *)
Theorem signal_config_mismatch_raised
        fuel h df s e chart_type price_column n names title msyms mcols
        inc dec :
  chart_accepted df chart_type ->
  0 < n ->
  names = None \/ (exists l, names = Some l /\ len l <> n) ->
  exists e',
    equity_chart_with_signals fuel h df s e chart_type price_column n names
                              title msyms mcols inc dec
    = Some (h, Raise e') /\
    SignalConfigMismatch e' /\
    (names = None -> e' = ValueError NamesNotProvided) /\
    (forall l, names = Some l ->
               e' = ValueError (NamesLengthMismatch (length l) n)).
Proof.
  intros Hc Hn Hnames. apply chart_accepted_spec in Hc as [Hc Ho].
  unfold equity_chart_with_signals.
  rewrite (validate_signals _ _ _ _ Hc Ho).
  destruct Hnames as [->|(l & -> & Hl)].
  - replace (0 <? n) with true by (symmetry; lia).
    eexists. split; [reflexivity|]. split; [left; reflexivity|].
    split; [reflexivity | discriminate].
  - replace (len l =? n) with false by (symmetry; lia).
    eexists. split; [reflexivity|]. split; [right; eauto|].
    split; [discriminate | intros l' [= <-]; reflexivity].
Qed.

(** C9, as the code has it.  Once the chart type and the candlestick
    columns are accepted, a signal count of 0 with a name list that is not
    empty fails the length check of lines 64-65. *)
Theorem zero_count_with_names_rejected
        fuel h df s e chart_type price_column names title msyms mcols
        inc dec (l : list string) :
  chart_accepted df chart_type ->
  names = Some l -> l <> [] ->
  equity_chart_with_signals fuel h df s e chart_type price_column 0 names
                            title msyms mcols inc dec
  = Some (h, Raise (ValueError (NamesLengthMismatch (length l) 0))).
Proof.
  intros Hc -> Hl. apply chart_accepted_spec in Hc as [Hc Ho].
  unfold equity_chart_with_signals.
  rewrite (validate_signals _ _ _ _ Hc Ho).
  replace (len l =? 0) with false; [reflexivity|].
  symmetry. apply Z.eqb_neq. unfold len. destruct l; [congruence|].
  simpl length. lia.
Qed.

(** ** Calls that skip the loops *)

Lemma ensure_enough_covered fuel n h v :
  n <= len (contents h v) -> ensure_enough fuel n h v = Some (h, v).
Proof.
  intros H. destruct fuel; cbn [ensure_enough];
    replace (len (contents h v) <? n) with false by (symmetry; lia);
    reflexivity.
Qed.

Lemma df_getitem_total dff c :
  In c (columns dff) -> exists vs, df_getitem dff c = Return vs.
Proof.
  intros H. apply str_in_In in H. unfold columns in H.
  apply lookup_column_Some in H as [vs H].
  exists vs. unfold df_getitem. rewrite H. reflexivity.
Qed.

(** The price trace is built whenever the chart is accepted and, for a line
    chart, the price column exists. *)
Lemma price_trace_total df s e chart_type price_column inc dec :
  chart_accepted df chart_type ->
  (chart_type = "line" -> In price_column (columns df)) ->
  exists p, price_trace (loc_slice df s e) chart_type price_column inc dec
            = Return p.
Proof.
  intros [->|[-> Hm]] Hp.
  - rewrite price_trace_line.
    destruct (df_getitem_total (loc_slice df s e) price_column) as [y Hy].
    { rewrite loc_slice_columns. auto. }
    rewrite Hy. simpl. eauto.
  - rewrite price_trace_candlestick.
    pose proof (no_missing_cols df Hm) as Hall.
    assert (Hcol : forall c, In c required_cols ->
                             exists vs, df_getitem (loc_slice df s e) c
                                        = Return vs).
    { intros c Hc. apply df_getitem_total. rewrite loc_slice_columns.
      apply str_in_In, Hall, Hc. }
    destruct (Hcol "open") as [o Ho]; [simpl; auto|].
    destruct (Hcol "high") as [hi Hh]; [simpl; auto|].
    destruct (Hcol "low") as [lo Hl]; [simpl; auto|].
    destruct (Hcol "close") as [c Hc]; [simpl; auto|].
    rewrite Ho, Hh, Hl, Hc. simpl. eauto.
Qed.

Lemma price_trace_Raise dff chart_type price_column inc dec e' :
  price_trace dff chart_type price_column inc dec = Raise e' ->
  exists c, e' = KeyError c.
Proof.
  unfold price_trace, df_getitem.
  destruct (String.eqb chart_type "line").
  - destruct (lookup_column (data dff) price_column); simpl;
      [discriminate | intros [= <-]; eauto].
  - repeat match goal with
           | |- context [lookup_column ?d ?c] =>
               destruct (lookup_column d c); simpl;
               [|intros [= <-]; eauto]
           end.
    discriminate.
Qed.

Lemma build_figure_no_rounds dff chart_type price_column n names title
      syms cols inc dec :
  n <= 0 ->
  build_figure dff chart_type price_column n names title syms cols inc dec =
  p <- price_trace dff chart_type price_column inc dec ;;
  Return {| secondary_y := true; traces := [p];
            fig_layout := chart_layout title |}.
Proof.
  intros Hn. unfold build_figure, for_range.
  replace (Z.to_nat n) with O by lia. reflexivity.
Qed.

(** C10, as the code has it.  With a negative signal count and no name list
    the signal checks of lines 61-65 never fire, whatever the other
    arguments are.  When the chart type and the candlestick columns are
    accepted and, for a line chart, the price column exists, the call
    returns, without running either loop, a figure that holds the price
    trace and no marker trace. *)
Theorem negative_count_price_trace_only
        fuel h df s e chart_type price_column n title msyms mcols inc dec :
  n < 0 ->
  (forall h' e',
      equity_chart_with_signals fuel h df s e chart_type price_column n None
                                title msyms mcols inc dec
      = Some (h', Raise e') -> ~ SignalConfigMismatch e') /\
  (chart_accepted df chart_type ->
   (chart_type = "line" -> In price_column (columns df)) ->
   exists p,
     price_trace (loc_slice df s e) chart_type price_column inc dec
     = Return p /\
     equity_chart_with_signals fuel h df s e chart_type price_column n None
                               title msyms mcols inc dec
     = Some (h, Return {| secondary_y := true; traces := [p];
                          fig_layout := chart_layout title |})).
Proof.
  intros Hn. split.
  - intros h' e' Hcall Hm.
    apply call_Some in Hcall as [(e1 & Hv & _ & [= <-])|(_ & syms & cols & _ & Hb)].
    + destruct (str_in chart_type ["line"; "candlestick"]) eqn:Hc.
      * destruct (ohlc_ok df chart_type) eqn:Ho.
        -- rewrite (validate_signals _ _ _ _ Hc Ho) in Hv.
           replace (0 <? n) with false in Hv by (symmetry; lia).
           discriminate.
        -- unfold validate in Hv. rewrite Hc in Hv. unfold ohlc_ok in Ho.
           apply orb_false_iff in Ho as [Ho1 Ho2].
           apply negb_false_iff in Ho1. rewrite Ho1, Ho2 in Hv.
           injection Hv as <-.
           destruct Hm as [Hm|(k & m & Hm)]; discriminate.
      * rewrite validate_chart_type in Hv by assumption.
        injection Hv as <-.
        destruct Hm as [Hm|(k & m & Hm)]; discriminate.
    + rewrite build_figure_no_rounds in Hb by lia.
      destruct (price_trace _ _ _ _ _) as [p|e1] eqn:Hp; [discriminate|].
      injection Hb as ->. apply price_trace_Raise in Hp as [c ->].
      destruct Hm as [Hm|(k & m & Hm)]; discriminate.
  - intros Hc Hp.
    destruct (price_trace_total df s e chart_type price_column inc dec Hc Hp)
      as [p Hpt].
    exists p. split; [exact Hpt|].
    apply chart_accepted_spec in Hc as [Hc Ho].
    unfold equity_chart_with_signals.
    rewrite (validate_signals _ _ _ _ Hc Ho).
    replace (0 <? n) with false by (symmetry; lia).
    rewrite !ensure_enough_covered by (unfold len; lia).
    rewrite build_figure_no_rounds by lia. rewrite Hpt. reflexivity.
Qed.

(** ** Empty marker lists *)

(** C3 fails on the code.  With a positive signal count, an empty marker list
    from the caller stays empty under [extend]: the loop of lines 81-85
    never ends and the call returns nothing, however much fuel it gets. *)
Theorem empty_marker_list_never_returns
        h df s e chart_type price_column n names title msyms mcols inc dec
        (l : loc) :
  validate df chart_type n names = Return tt ->
  0 < n ->
  h l = [] ->
  msyms = Some l \/ mcols = Some l ->
  forall fuel,
    equity_chart_with_signals fuel h df s e chart_type price_column n names
                              title msyms mcols inc dec = None.
Proof.
  intros Hv Hn He Harg fuel. unfold equity_chart_with_signals. rewrite Hv.
  destruct msyms as [l1|].
  - destruct (Nat.eq_dec l1 l) as [->|Hne].
    + rewrite ensure_enough_diverges; auto.
    + destruct Harg as [[= E] | ->]; [congruence|].
      destruct (ensure_enough fuel n h _) as [[h1 sv]|] eqn:E1; auto.
      apply ensure_enough_Some in E1 as (k & _ & _ & _ & F1 & _).
      rewrite ensure_enough_diverges; auto.
      cbn [or_default contents]. rewrite F1; [exact He|]. exact Hne.
  - destruct Harg as [[=] | ->].
    destruct (ensure_enough fuel n h _) as [[h1 sv]|] eqn:E1; auto.
    apply ensure_enough_Some in E1 as (k & _ & _ & _ & F1 & _).
    rewrite ensure_enough_diverges; auto.
    cbn [or_default contents]. rewrite F1; [exact He|]. exact I.
Qed.

(** ** Calls that return a figure *)

Lemma covers_spec n h arg : covers n h arg = true <-> can_cover n h arg.
Proof.
  destruct arg as [l|]; simpl; [|tauto].
  rewrite orb_true_iff, Z.leb_le, negb_true_iff.
  destruct (h l); simpl; split; intros [H|H]; auto; try discriminate;
    try congruence.
  right. discriminate.
Qed.

Lemma valid_call_spec h df s e chart_type price_column n names msyms mcols :
  valid_call h df s e chart_type price_column n names msyms mcols = true <->
  validate df chart_type n names = Return tt /\
  can_cover n h msyms /\ can_cover n h mcols /\
  (chart_type = "line" \/ 0 < n -> In price_column (columns df)) /\
  (forall c, In c (names_list names) ->
             is_mask (loc_slice df s e) c = true).
Proof.
  unfold valid_call.
  rewrite !andb_true_iff, validate_Return, !covers_spec, forallb_forall.
  rewrite orb_true_iff, negb_true_iff, orb_false_iff.
  rewrite String.eqb_neq, Z.ltb_ge.
  split.
  - intros ((((((H1 & H2) & H3) & H4) & H5) & H6) & H7).
    repeat split; auto. intros Hp. destruct H6 as [[Ha Hb]|H6].
    + destruct Hp; [congruence | lia].
    + apply str_in_In, H6.
  - intros ((H1 & H2 & H3) & H4 & H5 & H6 & H7).
    repeat split; auto.
    destruct (string_dec chart_type "line") as [E|E];
      [right; apply str_in_In; auto|].
    destruct (Z_lt_le_dec 0 n); [right; apply str_in_In; auto | left; auto].
Qed.

Lemma names_ok_getitem n names i :
  names_ok n names = true -> 0 <= i < n ->
  exists c, opt_getitem names i = Return c /\ In c (names_list names).
Proof.
  unfold names_ok. intros H Hi. destruct names as [l|]; [|lia].
  apply Z.eqb_eq in H. unfold len in H. cbn [opt_getitem names_list].
  destruct (nth_error l (Z.to_nat i)) as [c|] eqn:E.
  - exists c. split; [apply py_getitem_Return; [lia | exact E]|].
    eapply nth_error_In, E.
  - apply nth_error_None in E. lia.
Qed.

Lemma is_mask_spec dff c :
  is_mask dff c = true <->
  exists sig mask, lookup_column (data dff) c = Some sig /\
                   as_mask sig = Some mask.
Proof.
  unfold is_mask. destruct (lookup_column (data dff) c) as [sig|].
  - destruct (as_mask sig) as [m|] eqn:E; simpl; split; eauto;
      try discriminate.
    intros (sig' & m & [= <-] & H). rewrite E in H. discriminate.
  - split; [discriminate | intros (? & ? & [=] & _)].
Qed.

(** The same for a round whose signal column is a boolean column. *)
Lemma signal_trace_Return_mask dff price_column names syms cols i t :
  (forall c, opt_getitem names i = Return c -> is_mask dff c = true) ->
  signal_trace dff price_column names syms cols i = Return t ->
  exists signal_col sig mask prices color symbol,
    opt_getitem names i = Return signal_col /\
    lookup_column (data dff) signal_col = Some sig /\
    as_mask sig = Some mask /\
    lookup_column (data dff) price_column = Some prices /\
    len cols <> 0 /\ py_getitem cols (i mod len cols) = Return color /\
    len syms <> 0 /\ py_getitem syms (i mod len syms) = Return symbol /\
    t = marker_trace (select mask (index dff)) (select mask prices)
                     signal_col color symbol.
Proof.
  intros Hmask H.
  apply signal_trace_Return in H
    as (signal_col & sig & prices & x & y & color & symbol
        & Hn & Hs & Hx & Hp & Hy & Hc & Hcol & Hy' & Hsym & ->).
  pose proof (Hmask _ Hn) as Hm.
  apply is_mask_spec in Hm as (sig' & mask & Hs' & Hm).
  assert (sig' = sig) as -> by congruence.
  unfold index_at, series_at in Hx, Hy. rewrite Hm in Hx, Hy.
  injection Hx as <-. injection Hy as <-.
  exists signal_col, sig, mask, prices, color, symbol.
  repeat split; auto.
Qed.

(** The shape of a figure that was built. *)
Lemma build_figure_Return dff chart_type price_column n names title syms cols
      inc dec fig :
  build_figure dff chart_type price_column n names title syms cols inc dec
  = Return fig ->
  exists p ms,
    price_trace dff chart_type price_column inc dec = Return p /\
    fig = {| secondary_y := true; traces := p :: ms;
             fig_layout := chart_layout title |} /\
    length ms = Z.to_nat n /\
    forall i, 0 <= i < n ->
              exists t, nth_error ms (Z.to_nat i) = Some t /\
                        signal_trace dff price_column names syms cols i
                        = Return t.
Proof.
  unfold build_figure, for_range. intros H.
  apply bind_Return in H as (p & Hp & H).
  apply bind_Return in H as (ms & Hms & [= <-]).
  apply for_from_Return in Hms as [Hlen Hnth].
  exists p, ms. repeat split; auto.
  intros i Hi. destruct (Hnth (Z.to_nat i) ltac:(lia)) as (t & H1 & H2).
  exists t. split; auto. rewrite <- H2. f_equal. lia.
Qed.

Lemma min_doublings_not_nil {A} n (xs : list A) k :
  0 < n -> min_doublings n xs k -> doubled k xs <> [].
Proof.
  intros Hn [H _] E. rewrite E in H. unfold len in H. simpl in H. lia.
Qed.

(** Every valid call returns a figure, given [n] rounds of fuel. *)
Lemma valid_call_returns fuel h df s e chart_type price_column n names title
      msyms mcols inc dec :
  valid_call h df s e chart_type price_column n names msyms mcols = true ->
  (Z.to_nat n <= fuel)%nat ->
  exists h' syms cols fig,
    markers_resolved fuel n h msyms mcols h' syms cols /\
    build_figure (loc_slice df s e) chart_type price_column n names title
                 syms cols inc dec = Return fig /\
    equity_chart_with_signals fuel h df s e chart_type price_column n names
                              title msyms mcols inc dec
    = Some (h', Return fig).
Proof.
  intros Hvalid Hfuel.
  apply valid_call_spec in Hvalid as (Hv & Hs & Hc & Hp & Hm).
  destruct (markers_resolved_total fuel n h msyms mcols Hs Hc Hfuel)
    as (h' & syms & cols & Hres).
  pose proof (markers_resolved_spec _ _ _ _ _ _ _ _ Hres)
    as (ks & kc & Ms & Es & Mc & Ec & _).
  pose proof Hv as Hv'. apply validate_Return in Hv' as (Hct & Ho & Hn).
  destruct (price_trace_total df s e chart_type price_column inc dec)
    as [p Hpt]; [apply chart_accepted_spec; auto | auto |].
  assert (Hrounds : exists ms,
             for_range n (signal_trace (loc_slice df s e) price_column names
                                       syms cols) = Return ms).
  { apply for_from_total. intros j Hj. rewrite Z.add_0_l.
    assert (Hi : 0 <= Z.of_nat j < n) by lia.
    destruct (names_ok_getitem n names _ Hn Hi) as (c & Hget & Hin).
    apply Hm, is_mask_spec in Hin as (sig & mask & Hsig & Hmask).
    destruct (df_getitem_total (loc_slice df s e) price_column)
      as [prices Hprices].
    { rewrite loc_slice_columns. apply Hp. right. lia. }
    unfold df_getitem in Hprices.
    destruct (lookup_column _ price_column) as [prices'|] eqn:Hl;
      [|discriminate].
    eapply signal_trace_total; eauto; try lia.
    - rewrite Es. apply (min_doublings_not_nil n); [lia | exact Ms].
    - rewrite Ec. apply (min_doublings_not_nil n); [lia | exact Mc]. }
  destruct Hrounds as [ms Hms].
  exists h', syms, cols,
    {| secondary_y := true; traces := p :: ms;
       fig_layout := chart_layout title |}.
  assert (Hb : build_figure (loc_slice df s e) chart_type price_column n
                            names title syms cols inc dec
               = Return {| secondary_y := true; traces := p :: ms;
                           fig_layout := chart_layout title |}).
  { unfold build_figure. rewrite Hpt. cbn [bind]. rewrite Hms. reflexivity. }
  split; [exact Hres|]. split; [exact Hb|].
  rewrite (call_resolved _ _ _ _ _ _ _ _ _ _ _ _ _ _ _ _ _ Hv Hres).
  rewrite Hb. reflexivity.
Qed.

(** ** Lists that cannot cover the count *)

Lemma markers_resolved_can_cover fuel n h msyms mcols h' syms cols :
  markers_resolved fuel n h msyms mcols h' syms cols ->
  can_cover n h msyms /\ can_cover n h mcols.
Proof.
  intros (h1 & sv & cv & E1 & E2 & _).
  assert (Hs : can_cover n h msyms).
  { destruct msyms as [l|]; [|exact I]. cbn [can_cover].
    destruct (Z_le_gt_dec n 0); [left; assumption|]. right. intros He.
    rewrite ensure_enough_diverges in E1; [discriminate | exact He | lia]. }
  split; [exact Hs|].
  destruct mcols as [l|]; [|exact I]. cbn [can_cover].
  destruct (Z_le_gt_dec n 0); [left; assumption|]. right. intros He.
  assert (H1 : h1 l = []).
  { apply ensure_enough_Some in E1 as (k & _ & C1 & _ & F1 & V1).
    destruct msyms as [l1|]; cbn [or_default] in *.
    - destruct (Nat.eq_dec l1 l) as [->|Hne].
      + subst sv. cbn [contents] in C1. rewrite C1, He. apply doubled_nil.
      + rewrite F1; [exact He | exact Hne].
    - rewrite F1; [exact He | exact I]. }
  rewrite ensure_enough_diverges in E2; [discriminate | exact H1 | lia].
Qed.

Lemma lookup_column_columns dff c vs :
  lookup_column (data dff) c = Some vs -> In c (columns dff).
Proof.
  intros H. apply str_in_In. unfold columns.
  apply lookup_column_Some. eauto.
Qed.

(** C1 fails on the code.  A marker list the caller passes empty can never
    cover a positive signal count: however often it is doubled it stays
    shorter than the count, so the loops of lines 81-85 never end, for any
    fuel, and no style is ever read from the list. *)
Theorem empty_marker_list_never_resolved
        n h msyms mcols (l : loc) :
  0 < n ->
  h l = [] ->
  msyms = Some l \/ mcols = Some l ->
  (forall k, Z.of_nat (length (concat (repeat (h l) (2 ^ k)))) < n) /\
  (forall fuel h' syms cols,
      ~ markers_resolved fuel n h msyms mcols h' syms cols).
Proof.
  intros Hn He Harg. split.
  - intros k. rewrite <- doubled_repeat, He, doubled_nil. simpl. lia.
  - intros fuel h' syms cols Hres.
    apply markers_resolved_can_cover in Hres as [Hs Hc].
    destruct Harg as [-> | ->]; cbn [can_cover] in *.
    + destruct Hs as [Hs|Hs]; [lia | congruence].
    + destruct Hc as [Hc|Hc]; [lia | congruence].
Qed.

(** ** The rows behind the traces *)

Lemma rows_in_range_stamps s e idx vs :
  length vs = length idx ->
  map fst (rows_in_range s e idx vs) = filter (in_range s e) idx.
Proof.
  revert vs. induction idx as [|t idx IH]; intros [|v vs] H;
    try discriminate; auto.
  unfold rows_in_range in *. simpl in *.
  destruct (in_range s e t); simpl; rewrite IH by lia; reflexivity.
Qed.


Lemma as_mask_cons c cs m :
  as_mask (c :: cs) = Some m ->
  exists b m', c = Flag b /\ m = b :: m' /\ as_mask cs = Some m'.
Proof.
  destruct c as [v|b]; simpl; [discriminate|].
  destruct (as_mask cs) as [m'|]; simpl; [|discriminate].
  intros [= <-]. eauto.
Qed.

(** Masking the sliced index and the sliced price column with the sliced
    signal column gives the marked points of the table. *)
Lemma marker_points s e idx prices sig m :
  length prices = length idx -> length sig = length idx ->
  as_mask (select (map (in_range s e) idx) sig) = Some m ->
  select m (select (map (in_range s e) idx) idx)
  = map fst (signal_points s e idx prices sig) /\
  select m (select (map (in_range s e) idx) prices)
  = map snd (signal_points s e idx prices sig).
Proof.
  revert prices sig m.
  induction idx as [|t idx IH]; intros [|p ps] [|c cs] m Hp Hs Hm;
    try discriminate.
  - simpl in Hm. injection Hm as <-. split; reflexivity.
  - unfold signal_points in *. cbn [map select combine filter fst snd] in *.
    destruct (in_range s e t); cbn [andb].
    + apply as_mask_cons in Hm as (b & m' & -> & -> & Hm').
      destruct (IH ps cs m' ltac:(simpl in *; lia) ltac:(simpl in *; lia) Hm')
        as [IH1 IH2].
      cbn [is_true select]. destruct b; cbn [map fst snd];
        rewrite IH1, IH2; split; reflexivity.
    + apply IH; simpl in *; auto; lia.
Qed.

(** ** The price trace and the marker traces *)


Lemma names_getitem_nth names i c :
  0 <= i -> opt_getitem names i = Return c ->
  nth_error (names_list names) (Z.to_nat i) = Some c.
Proof.
  destruct names as [l|]; simpl; [|discriminate].
  intros Hi H. apply py_getitem_Return in H; auto.
Qed.

Lemma valid_call_masks h df s e chart_type price_column n names msyms mcols
      i c :
  valid_call h df s e chart_type price_column n names msyms mcols = true ->
  0 <= i -> opt_getitem names i = Return c ->
  is_mask (loc_slice df s e) c = true.
Proof.
  intros Hvalid Hi Hget.
  apply valid_call_spec in Hvalid as (_ & _ & _ & _ & Hm).
  apply Hm. eapply nth_error_In, names_getitem_nth; eauto.
Qed.

Lemma initial_match h arg default :
  initial h arg default = match arg with
                          | Some l => h l
                          | None => default
                          end.
Proof. destruct arg; reflexivity. Qed.

(** C7.  For an ascending table and a call that is valid, the figure has one
    marker trace per signal column, after the price trace.  The trace of
    signal [i] is named after entry [i] of the name list; its points are
    the (stamp, price) pairs of the rows in range on which that column is
    true; its colour and its symbol are the entries at [i mod length] of
    the resolved lists, each resolved list being [2 ^ k] whole copies of
    the list passed (or of the default palette) and at least as long as the
    signal count, so that they are also the entries at [i mod length] of
    the lists passed. *)
Theorem signal_marker_traces
        fuel h df s e chart_type price_column n names title msyms mcols
        inc dec :
  well_formed df = true ->
  valid_call h df s e chart_type price_column n names msyms mcols = true ->
  (Z.to_nat n <= fuel)%nat ->
  exists h' fig ks kc,
    equity_chart_with_signals fuel h df s e chart_type price_column n names
                              title msyms mcols inc dec
    = Some (h', Return fig) /\
    length (traces fig) = S (Z.to_nat n) /\
    let syms0 := match msyms with Some l => h l | None => default_symbols end in
    let cols0 := match mcols with Some l => h l | None => default_colors end in
    let syms := concat (repeat syms0 (2 ^ ks)) in
    let cols := concat (repeat cols0 (2 ^ kc)) in
    n <= Z.of_nat (length syms) /\ n <= Z.of_nat (length cols) /\
    forall i, 0 <= i < n ->
      exists name prices sig color symbol,
        nth_error (names_list names) (Z.to_nat i) = Some name /\
        lookup_column (data df) price_column = Some prices /\
        lookup_column (data df) name = Some sig /\
        nth_error cols (Z.to_nat (i mod Z.of_nat (length cols)))
        = Some color /\
        nth_error syms (Z.to_nat (i mod Z.of_nat (length syms)))
        = Some symbol /\
        nth_error cols0 (Z.to_nat (i mod Z.of_nat (length cols0)))
        = Some color /\
        nth_error syms0 (Z.to_nat (i mod Z.of_nat (length syms0)))
        = Some symbol /\
        nth_error (traces fig) (S (Z.to_nat i))
        = Some (marker_trace
                  (map fst (signal_points s e (index df) prices sig))
                  (map snd (signal_points s e (index df) prices sig))
                  name color symbol).
Proof.
  intros Hwf Hvalid Hfuel.
  destruct (valid_call_returns fuel h df s e chart_type price_column n names
              title msyms mcols inc dec Hvalid Hfuel)
    as (h' & syms & cols & fig & Hres & Hb & Hcall).
  apply build_figure_Return in Hb as (p & ms & Hp & -> & Hlen & Hnth).
  apply markers_resolved_spec in Hres
    as (ks & kc & Ms & Es & Mc & Ec & _).
  rewrite initial_match in Ms, Es, Mc, Ec.
  exists h', {| secondary_y := true; traces := p :: ms;
                fig_layout := chart_layout title |}, ks, kc.
  split; [exact Hcall|].
  split; [simpl; rewrite Hlen; reflexivity|].
  cbv zeta. rewrite <- !doubled_repeat.
  split; [apply Ms|]. split; [apply Mc|].
  intros i Hi. destruct (Hnth i Hi) as (t & Ht & Hst).
  apply signal_trace_Return_mask in Hst
    as (name & sig' & mask & prices' & color & symbol
        & Hname & Hsig & Hmask & Hprices & _ & Hcol & _ & Hsym & ->);
    [|intros c Hc; eapply valid_call_masks; eauto; lia].
  pose proof (well_formed_ascending df Hwf) as Ha.
  rewrite (loc_slice_column df s e _ Ha) in Hsig.
  rewrite (loc_slice_column df s e _ Ha) in Hprices.
  destruct (lookup_column (data df) name) as [sig|] eqn:Es';
    [|discriminate].
  destruct (lookup_column (data df) price_column) as [prices|] eqn:Ep;
    [|discriminate].
  simpl in Hsig, Hprices. injection Hsig as <-. injection Hprices as <-.
  unfold range_mask in *.
  destruct (marker_points s e (index df) prices sig mask) as [Hx Hy]; auto.
  { eapply well_formed_length; eauto. }
  { eapply well_formed_length; eauto. }
  rewrite Ec in Hcol. rewrite Es in Hsym.
  pose proof (cycle_entry _ kc n i color (proj1 Mc) Hi Hcol) as Hc0.
  pose proof (cycle_entry _ ks n i symbol (proj1 Ms) Hi Hsym) as Hs0.
  assert (Hpos : forall (xs : list string) k,
             n <= len (doubled k xs) -> 0 <= i mod len (doubled k xs)).
  { intros xs k Hk. apply Z.mod_pos_bound. lia. }
  apply py_getitem_Return in Hcol; [|apply Hpos, Mc].
  apply py_getitem_Return in Hsym; [|apply Hpos, Ms].
  exists name, prices, sig, color, symbol.
  split; [apply names_getitem_nth; [lia | exact Hname]|].
  split; [first [reflexivity | exact Ep]|].
  split; [first [reflexivity | exact Es']|].
  split; [exact Hcol|]. split; [exact Hsym|].
  split; [exact Hc0|]. split; [exact Hs0|].
  cbn [traces nth_error]. rewrite Ht. f_equal.
  unfold loc_slice. cbn [index]. rewrite (slice_select s e _ _ Ha).
  rewrite Hx, Hy. reflexivity.
Qed.

(** ** The caller's store *)

Lemma names_object_dec (arg : option loc) (l : loc) :
  {arg = Some l} + {arg <> Some l}.
Proof.
  destruct arg as [l'|]; [|right; discriminate].
  destruct (Nat.eq_dec l' l) as [->|H]; [left; reflexivity|].
  right. congruence.
Qed.

(** When every list the caller passes is already long enough, the call
    leaves the store as it found it. *)
Lemma store_preserved_when_covered
      fuel h df s e chart_type price_column n names title msyms mcols
      inc dec h' out :
  (forall l, msyms = Some l \/ mcols = Some l -> n <= len (h l)) ->
  equity_chart_with_signals fuel h df s e chart_type price_column n names
                            title msyms mcols inc dec = Some (h', out) ->
  forall l, h' l = h l.
Proof.
  intros Hlong Hcall l.
  apply call_Some in Hcall
    as [(e1 & _ & -> & _)|(_ & syms & cols & Hres & _)]; [reflexivity|].
  apply markers_resolved_spec in Hres
    as (ks & kc & Ms & Es & Mc & Ec & Hframe & Hsyms & Hcols).
  destruct (names_object_dec msyms l) as [E1|E1].
  - rewrite (Hsyms l E1), Es. subst msyms.
    assert (ks = O) as ->
        by (eapply min_doublings_0; [|exact Ms]; apply Hlong; auto).
    reflexivity.
  - destruct (names_object_dec mcols l) as [E2|E2].
    + rewrite (Hcols l E2), Ec. subst mcols.
      assert (kc = O) as ->
          by (eapply min_doublings_0; [|exact Mc]; apply Hlong; auto).
      reflexivity.
    + apply Hframe; assumption.
Qed.

(** C2 fails on the code.  A list the caller passes that is shorter than the
    signal count is extended in place: after the call the caller's own list
    is longer than before. *)
Theorem short_marker_list_extended_in_place
        fuel h df s e chart_type price_column n names title msyms mcols
        inc dec (l : loc) :
  validate df chart_type n names = Return tt ->
  can_cover n h msyms -> can_cover n h mcols ->
  (Z.to_nat n <= fuel)%nat ->
  msyms = Some l \/ mcols = Some l ->
  len (h l) < n ->
  exists h' out,
    equity_chart_with_signals fuel h df s e chart_type price_column n names
                              title msyms mcols inc dec = Some (h', out) /\
    n <= len (h' l) /\ h' l <> h l.
Proof.
  intros Hv Hs Hc Hfuel Harg Hshort.
  destruct (markers_resolved_total fuel n h msyms mcols Hs Hc Hfuel)
    as (h' & syms & cols & Hres).
  exists h', (build_figure (loc_slice df s e) chart_type price_column n
                           names title syms cols inc dec).
  split; [apply call_resolved; assumption|].
  apply markers_resolved_spec in Hres
    as (ks & kc & [Ms _] & Es & [Mc _] & Ec & _ & Hsyms & Hcols).
  assert (Hlen : n <= len (h' l)).
  { destruct Harg as [E|E].
    - rewrite (Hsyms l E), Es. exact Ms.
    - rewrite (Hcols l E), Ec. exact Mc. }
  split; [exact Hlen|]. intros E. rewrite E in Hlen. lia.
Qed.

(** * Further properties of the chart builder *)

(** ** Which exceptions a call can end in *)

Lemma resolved_not_nil fuel n h msyms mcols h' syms cols :
  markers_resolved fuel n h msyms mcols h' syms cols ->
  0 < n -> syms <> [] /\ cols <> [].
Proof.
  intros Hres Hn.
  apply markers_resolved_spec in Hres
    as (ks & kc & Ms & -> & Mc & -> & _).
  split; eapply min_doublings_not_nil; eauto.
Qed.

Lemma df_getitem_missing dff c :
  ~ In c (columns dff) -> df_getitem dff c = Raise (KeyError c).
Proof.
  intros H. unfold df_getitem.
  destruct (lookup_column (data dff) c) as [vs|] eqn:E; [|reflexivity].
  exfalso. apply H. eapply lookup_column_columns, E.
Qed.

(** X3.  A line chart on a table without the price column passes the
    validation, which does not look at the price column, and then fails
    with a KeyError for that column at line 95, before any signal is
    looked at. *)
Theorem missing_price_column_key_error
        fuel h df s e price_column n names title msyms mcols inc dec :
  names_ok n names = true ->
  ~ In price_column (columns df) ->
  can_cover n h msyms -> can_cover n h mcols ->
  (Z.to_nat n <= fuel)%nat ->
  validate df "line" n names = Return tt /\
  exists h',
    equity_chart_with_signals fuel h df s e "line" price_column n names
                              title msyms mcols inc dec
    = Some (h', Raise (KeyError price_column)).
Proof.
  intros Hn Hp Hs Hc Hfuel.
  assert (Hv : validate df "line" n names = Return tt)
    by (apply validate_Return; auto).
  split; [exact Hv|].
  destruct (markers_resolved_total fuel n h msyms mcols Hs Hc Hfuel)
    as (h' & syms & cols & Hres).
  exists h'. rewrite (call_resolved _ _ _ _ _ _ _ _ _ _ _ _ _ _ _ _ _ Hv Hres).
  unfold build_figure. rewrite price_trace_line.
  rewrite df_getitem_missing; [reflexivity|].
  rewrite loc_slice_columns. exact Hp.
Qed.

(** X4.  A call that fails after the validation is not undone: when the
    price column of a line chart is missing and the caller passed a marker
    list shorter than the signal count, the call ends in the KeyError and
    the caller's list has been extended all the same. *)
Theorem failed_call_keeps_extension
        fuel h df s e price_column n names title msyms mcols inc dec
        (l : loc) :
  names_ok n names = true ->
  ~ In price_column (columns df) ->
  can_cover n h msyms -> can_cover n h mcols ->
  (Z.to_nat n <= fuel)%nat ->
  msyms = Some l \/ mcols = Some l ->
  len (h l) < n ->
  exists h',
    equity_chart_with_signals fuel h df s e "line" price_column n names
                              title msyms mcols inc dec
    = Some (h', Raise (KeyError price_column)) /\
    n <= len (h' l) /\ h' l <> h l.
Proof.
  intros Hn Hp Hs Hc Hfuel Harg Hshort.
  assert (Hv : validate df "line" n names = Return tt)
    by (apply validate_Return; auto).
  destruct (markers_resolved_total fuel n h msyms mcols Hs Hc Hfuel)
    as (h' & syms & cols & Hres).
  exists h'. rewrite (call_resolved _ _ _ _ _ _ _ _ _ _ _ _ _ _ _ _ _ Hv Hres).
  split.
  - unfold build_figure. rewrite price_trace_line.
    rewrite df_getitem_missing; [reflexivity|].
    rewrite loc_slice_columns. exact Hp.
  - apply markers_resolved_spec in Hres
      as (ks & kc & [Ms _] & Es & [Mc _] & Ec & _ & Hsyms & Hcols).
    assert (Hlen : n <= len (h' l)).
    { destruct Harg as [E|E].
      - rewrite (Hsyms l E), Es. exact Ms.
      - rewrite (Hcols l E), Ec. exact Mc. }
    split; [exact Hlen|]. intros E. rewrite E in Hlen. lia.
Qed.

(** The rounds before round [j] pass and round [j] raises: the loop ends in
    that exception. *)
Lemma for_from_first_Raise {A} (body : Z -> outcome A) i k j e' :
  (j < k)%nat ->
  (forall m, (m < j)%nat -> exists t, body (i + Z.of_nat m) = Return t) ->
  body (i + Z.of_nat j) = Raise e' ->
  for_from body i k = Raise e'.
Proof.
  revert i k. induction j as [|j IH]; intros i k Hj Hbefore Hraise.
  - destruct k as [|k]; [lia|]. cbn [for_from].
    rewrite Z.add_0_r in Hraise. rewrite Hraise. reflexivity.
  - destruct k as [|k]; [lia|]. cbn [for_from].
    destruct (Hbefore O ltac:(lia)) as [t Ht].
    rewrite Z.add_0_r in Ht. rewrite Ht. cbn [bind].
    rewrite (IH (i + 1) k); [reflexivity | lia | |].
    + intros m Hm. destruct (Hbefore (S m) ltac:(lia)) as [t' Ht'].
      exists t'. rewrite <- Ht'. f_equal. lia.
    + rewrite <- Hraise. f_equal. lia.
Qed.

(** X5.  The signal columns are read in order and the first one the table
    lacks decides the outcome: when the price trace can be built, the
    signal columns before index [j] are boolean columns of the sliced table
    and the column named at [j] is missing, the call ends in a KeyError for
    that column and no figure is returned. *)
Theorem first_missing_signal_column_key_error
        fuel h df s e chart_type price_column n names title msyms mcols
        inc dec (j : Z) (c : string) :
  validate df chart_type n names = Return tt ->
  can_cover n h msyms -> can_cover n h mcols ->
  (Z.to_nat n <= fuel)%nat ->
  In price_column (columns df) ->
  0 <= j < n ->
  opt_getitem names j = Return c ->
  ~ In c (columns df) ->
  (forall i c', 0 <= i < j -> opt_getitem names i = Return c' ->
                is_mask (loc_slice df s e) c' = true) ->
  exists h',
    equity_chart_with_signals fuel h df s e chart_type price_column n names
                              title msyms mcols inc dec
    = Some (h', Raise (KeyError c)).
Proof.
  intros Hv Hs Hc Hfuel Hp Hj Hget Hmiss Hbefore.
  destruct (markers_resolved_total fuel n h msyms mcols Hs Hc Hfuel)
    as (h' & syms & cols & Hres).
  exists h'. rewrite (call_resolved _ _ _ _ _ _ _ _ _ _ _ _ _ _ _ _ _ Hv Hres).
  destruct (resolved_not_nil _ _ _ _ _ _ _ _ Hres ltac:(lia)) as [Hsy Hco].
  pose proof Hv as Hv'. apply validate_Return in Hv' as (Hct & Ho & Hn).
  destruct (price_trace_total df s e chart_type price_column inc dec)
    as [p Hpt]; [apply chart_accepted_spec; auto | auto |].
  unfold build_figure. rewrite Hpt. cbn [bind]. unfold for_range.
  rewrite (for_from_first_Raise _ 0 (Z.to_nat n) (Z.to_nat j) (KeyError c));
    [reflexivity | lia | |].
  - intros m Hm. rewrite Z.add_0_l.
    destruct (names_ok_getitem n names (Z.of_nat m) Hn ltac:(lia))
      as (c' & Hget' & _).
    pose proof (Hbefore (Z.of_nat m) c' ltac:(lia) Hget') as Hmask.
    apply is_mask_spec in Hmask as (sig & mask & Hsig & Hmask).
    destruct (df_getitem_total (loc_slice df s e) price_column)
      as [prices Hprices]; [rewrite loc_slice_columns; exact Hp|].
    unfold df_getitem in Hprices.
    destruct (lookup_column _ price_column) as [prices'|] eqn:Hl;
      [|discriminate].
    eapply signal_trace_total; eauto. lia.
  - rewrite Z.add_0_l, Z2Nat.id by lia.
    unfold signal_trace. rewrite Hget. cbn [bind].
    rewrite df_getitem_missing; [reflexivity|].
    rewrite loc_slice_columns. exact Hmiss.
Qed.

(** ** How far a list is extended *)

Lemma doubled_S {A} k (xs : list A) :
  doubled (S k) xs = (doubled k xs ++ doubled k xs)%list.
Proof.
  revert xs. induction k as [|k IH]; intros xs; [reflexivity|].
  change (doubled (S (S k)) xs) with (doubled (S k) (xs ++ xs)).
  rewrite IH. reflexivity.
Qed.

(** The least number of doublings overshoots by less than a factor two. *)
Lemma min_doublings_bound {A} n (xs : list A) k :
  min_doublings n xs k ->
  (n <= len xs -> k = O) /\
  (len xs < n -> n <= len (doubled k xs) < 2 * n).
Proof.
  intros M. split; [intros H; eapply min_doublings_0; eauto|].
  intros Hshort. destruct M as [M1 M2]. split; [exact M1|].
  destruct k as [|k]; [simpl in M1; lia|].
  specialize (M2 k ltac:(lia)). rewrite doubled_S. unfold len in *.
  rewrite length_app. lia.
Qed.

(** X6.  What the loop of lines 81-85 does to a list of the caller.  A list
    that is already as long as the signal count is left as it is.  A
    shorter list that is not empty ends up as whole copies of itself,
    [2 ^ k] of them, at least as long as the signal count and less than
    twice as long. *)
Theorem caller_list_growth
        fuel h df s e chart_type price_column n names title msyms mcols
        inc dec (l : loc) :
  validate df chart_type n names = Return tt ->
  can_cover n h msyms -> can_cover n h mcols ->
  (Z.to_nat n <= fuel)%nat ->
  msyms = Some l \/ mcols = Some l ->
  exists h' out k,
    equity_chart_with_signals fuel h df s e chart_type price_column n names
                              title msyms mcols inc dec = Some (h', out) /\
    h' l = concat (repeat (h l) (2 ^ k)) /\
    (n <= len (h l) -> h' l = h l) /\
    (len (h l) < n -> n <= len (h' l) < 2 * n).
Proof.
  intros Hv Hs Hc Hfuel Harg.
  destruct (markers_resolved_total fuel n h msyms mcols Hs Hc Hfuel)
    as (h' & syms & cols & Hres).
  pose proof (call_resolved fuel h df s e chart_type price_column n names
                            title msyms mcols inc dec h' syms cols Hv Hres)
    as Hcall.
  apply markers_resolved_spec in Hres
    as (ks & kc & Ms & Es & Mc & Ec & _ & Hsyms & Hcols).
  assert (Hk : exists k, min_doublings n (h l) k /\ h' l = doubled k (h l)).
  { destruct Harg as [E|E]; subst.
    - exists ks. split; [exact Ms|]. rewrite (Hsyms l eq_refl). reflexivity.
    - exists kc. split; [exact Mc|]. rewrite (Hcols l eq_refl). reflexivity. }
  destruct Hk as (k & Mk & Hk).
  destruct (min_doublings_bound n (h l) k Mk) as [H0 Hb].
  exists h', (build_figure (loc_slice df s e) chart_type price_column n
                           names title syms cols inc dec), k.
  split; [exact Hcall|]. split; [rewrite Hk; apply doubled_repeat|].
  split.
  - intros Hlong. rewrite Hk, (H0 Hlong). reflexivity.
  - intros Hshort. rewrite Hk. apply Hb, Hshort.
Qed.

(** ** Styles *)



(** ** The caller's store, whatever the outcome *)

(** X9.  Whether the call returns a figure or raises, the only list objects
    it can have changed are marker lists it was passed that were shorter
    than the signal count: every other object of the store is as it was. *)
Theorem caller_store_frame
        fuel h df s e chart_type price_column n names title msyms mcols
        inc dec h' out (l : loc) :
  equity_chart_with_signals fuel h df s e chart_type price_column n names
                            title msyms mcols inc dec = Some (h', out) ->
  (msyms <> Some l /\ mcols <> Some l) \/ n <= len (h l) ->
  h' l = h l.
Proof.
  intros Hcall Hl.
  apply call_Some in Hcall
    as [(e1 & _ & -> & _)|(_ & syms & cols & Hres & _)]; [reflexivity|].
  apply markers_resolved_spec in Hres
    as (ks & kc & Ms & Es & Mc & Ec & Hframe & Hsyms & Hcols).
  destruct (names_object_dec msyms l) as [E1|E1].
  - destruct Hl as [[Hl _]|Hl]; [contradiction|].
    rewrite (Hsyms l E1), Es. subst msyms.
    assert (ks = O) as -> by (eapply min_doublings_0; [|exact Ms]; exact Hl).
    reflexivity.
  - destruct (names_object_dec mcols l) as [E2|E2].
    + destruct Hl as [[_ Hl]|Hl]; [contradiction|].
      rewrite (Hcols l E2), Ec. subst mcols.
      assert (kc = O) as -> by (eapply min_doublings_0; [|exact Mc]; exact Hl).
      reflexivity.
    + apply Hframe; assumption.
Qed.

(** ** Calls without signals *)

(** X10.  With a signal count of zero or less and a name list that fits it
    (absent, or empty for a count of zero), neither loop runs and the
    marker lists are not read: once the chart type and the columns the
    price trace needs are there, the call returns, for any fuel and any
    marker lists, a figure that holds the price trace alone, and the store
    is as it was. *)
Theorem no_signals_price_trace_only
        fuel h df s e chart_type price_column n names title msyms mcols
        inc dec :
  n <= 0 ->
  names_ok n names = true ->
  chart_accepted df chart_type ->
  (chart_type = "line" -> In price_column (columns df)) ->
  exists p,
    price_trace (loc_slice df s e) chart_type price_column inc dec
    = Return p /\
    equity_chart_with_signals fuel h df s e chart_type price_column n names
                              title msyms mcols inc dec
    = Some (h, Return {| secondary_y := true; traces := [p];
                         fig_layout := chart_layout title |}).
Proof.
  intros Hn Hnames Hc Hp.
  destruct (price_trace_total df s e chart_type price_column inc dec Hc Hp)
    as [p Hpt].
  exists p. split; [exact Hpt|].
  apply chart_accepted_spec in Hc as [Hc Ho].
  assert (Hv : validate df chart_type n names = Return tt)
    by (apply validate_Return; auto).
  unfold equity_chart_with_signals. rewrite Hv.
  rewrite !ensure_enough_covered by (unfold len; lia).
  rewrite build_figure_no_rounds by lia. rewrite Hpt. reflexivity.
Qed.

(** ** The sliced table and the shape of the traces *)

Lemma ascending_cons t r :
  Forall (fun u => t <= u) r -> ascending r = true ->
  ascending (t :: r) = true.
Proof.
  intros Hle Ha. destruct r as [|u r]; [reflexivity|].
  cbn [ascending]. inversion Hle; subst.
  apply andb_true_iff. split; [lia | exact Ha].
Qed.

Lemma ascending_filter (p : timestamp -> bool) ts :
  ascending ts = true -> ascending (filter p ts) = true.
Proof.
  induction ts as [|t r IH]; intros Ha; [reflexivity|].
  pose proof (ascending_head t r Ha) as Hle.
  pose proof (IH (ascending_tail t r Ha)) as Hr.
  simpl. destruct (p t); [|exact Hr].
  apply ascending_cons; [|exact Hr].
  apply Forall_forall. intros u Hu. apply filter_In in Hu as [Hu _].
  rewrite Forall_forall in Hle. apply Hle, Hu.
Qed.

Lemma slice_length {A B} lo hi (xs : list A) (ys : list B) :
  length xs = length ys ->
  length (slice lo hi xs) = length (slice lo hi ys).
Proof.
  intros H. unfold slice. rewrite !length_firstn, !length_skipn, H.
  reflexivity.
Qed.

Lemma select_length {A B} (m : list bool) (xs : list A) (ys : list B) :
  length xs = length ys ->
  length (select m xs) = length (select m ys).
Proof.
  revert xs ys. induction m as [|b m IH]; intros [|x xs] [|y ys] H;
    try discriminate; auto.
  simpl in *. destruct b; simpl; rewrite (IH xs ys) by lia; reflexivity.
Qed.

Lemma select_incl {A} (m : list bool) (xs : list A) : incl (select m xs) xs.
Proof.
  revert xs. induction m as [|b m IH]; intros [|x xs] a Ha;
    try contradiction.
  simpl in Ha. destruct b.
  - destruct Ha as [<-|Ha]; [left; reflexivity | right; apply IH, Ha].
  - right. apply IH, Ha.
Qed.

Lemma loc_slice_well_formed df s e :
  well_formed df = true -> well_formed (loc_slice df s e) = true.
Proof.
  intros Hwf. pose proof (well_formed_ascending df Hwf) as Ha.
  unfold well_formed. apply andb_true_iff. split.
  - rewrite (loc_slice_index df s e Ha). apply ascending_filter, Ha.
  - apply forallb_forall. intros [c vs'] Hin.
    unfold loc_slice in *. cbn [data index] in *.
    apply in_map_iff in Hin as ([c0 vs] & [= <- <-] & Hin).
    apply Nat.eqb_eq, slice_length.
    unfold well_formed in Hwf. apply andb_true_iff in Hwf as [_ Hwf].
    rewrite forallb_forall in Hwf. specialize (Hwf _ Hin). simpl in Hwf.
    apply Nat.eqb_eq, Hwf.
Qed.

Lemma df_getitem_Return dff c vs :
  df_getitem dff c = Return vs -> lookup_column (data dff) c = Some vs.
Proof.
  unfold df_getitem. destruct (lookup_column (data dff) c);
    [intros [= <-]; reflexivity | discriminate].
Qed.

(** X11.  The table the traces are read from, [df.loc[start:end].copy()],
    keeps the invariants of the input table: its index is ascending and
    every column has one cell per row.  It has the same columns, and its
    stamps are the stamps of the table that lie in the range. *)
Theorem filtered_table_well_formed df s e :
  well_formed df = true ->
  well_formed (loc_slice df s e) = true /\
  columns (loc_slice df s e) = columns df /\
  forall t, In t (index (loc_slice df s e)) <->
            In t (index df) /\ s <= t <= e.
Proof.
  intros Hwf. split; [apply loc_slice_well_formed, Hwf|].
  split; [apply loc_slice_columns|].
  intros t. rewrite (loc_slice_index df s e (well_formed_ascending df Hwf)).
  rewrite filter_In. unfold in_range. rewrite andb_true_iff.
  rewrite !Z.leb_le. tauto.
Qed.

(** The traces of a figure built from a well-formed table, one by one. *)
Lemma price_trace_rectangular dff chart_type price_column inc dec p :
  well_formed dff = true ->
  price_trace dff chart_type price_column inc dec = Return p ->
  rectangular p /\ stamps p = index dff.
Proof.
  intros Hwf. unfold price_trace.
  destruct (String.eqb chart_type "line").
  - intros H. apply bind_Return in H as (y & Hy & [= <-]).
    apply df_getitem_Return in Hy. split; [|reflexivity]. simpl.
    eapply well_formed_length; eauto.
  - intros H.
    apply bind_Return in H as (o & Ho & H).
    apply bind_Return in H as (hi & Hh & H).
    apply bind_Return in H as (lo & Hl & H).
    apply bind_Return in H as (c & Hc & [= <-]).
    apply df_getitem_Return in Ho, Hh, Hl, Hc.
    split; [|reflexivity]. simpl.
    repeat split; eapply well_formed_length; eauto.
Qed.

Lemma signal_trace_rectangular dff price_column names syms cols i t :
  well_formed dff = true ->
  (forall c, opt_getitem names i = Return c -> is_mask dff c = true) ->
  signal_trace dff price_column names syms cols i = Return t ->
  rectangular t /\
  exists mask prices,
    lookup_column (data dff) price_column = Some prices /\
    stamps t = select mask (index dff) /\
    exists name color symbol,
      t = marker_trace (select mask (index dff)) (select mask prices)
                       name color symbol.
Proof.
  intros Hwf Hmask Ht.
  apply signal_trace_Return_mask in Ht
    as (name & sig & mask & prices & color & symbol
        & _ & _ & _ & Hp & _ & _ & _ & _ & ->); [|exact Hmask].
  split.
  - simpl. apply select_length. eapply well_formed_length; eauto.
  - exists mask, prices. split; [exact Hp|]. split; [reflexivity|]. eauto.
Qed.

Lemma markers_are_rounds dff chart_type price_column n names title syms cols
      inc dec fig :
  build_figure dff chart_type price_column n names title syms cols inc dec
  = Return fig ->
  exists p ms,
    price_trace dff chart_type price_column inc dec = Return p /\
    traces fig = p :: ms /\ length ms = Z.to_nat n /\
    forall t, In t ms ->
              exists i, 0 <= i < n /\
                        signal_trace dff price_column names syms cols i
                        = Return t.
Proof.
  intros Hb. apply build_figure_Return in Hb as (p & ms & Hp & -> & Hlen & Hnth).
  exists p, ms. repeat split; auto.
  intros t Hin. apply In_nth_error in Hin as [j Hj].
  assert (Hlt : (j < length ms)%nat) by (apply nth_error_Some; congruence).
  exists (Z.of_nat j). split; [lia|].
  destruct (Hnth (Z.of_nat j) ltac:(lia)) as (t' & Ht' & Hst).
  rewrite Nat2Z.id in Ht'. congruence.
Qed.

(** X12.  From a well-formed table, every trace of the returned figure is
    rectangular: the price trace and each marker trace carry exactly one
    value per stamp, in every series. *)
Theorem traces_rectangular
        fuel h df s e chart_type price_column n names title msyms mcols
        inc dec :
  well_formed df = true ->
  valid_call h df s e chart_type price_column n names msyms mcols = true ->
  (Z.to_nat n <= fuel)%nat ->
  exists h' fig,
    equity_chart_with_signals fuel h df s e chart_type price_column n names
                              title msyms mcols inc dec
    = Some (h', Return fig) /\
    length (traces fig) = S (Z.to_nat n) /\
    Forall rectangular (traces fig).
Proof.
  intros Hwf Hvalid Hfuel.
  destruct (valid_call_returns fuel h df s e chart_type price_column n names
              title msyms mcols inc dec Hvalid Hfuel)
    as (h' & syms & cols & fig & _ & Hb & Hcall).
  exists h', fig. split; [exact Hcall|].
  apply markers_are_rounds in Hb as (p & ms & Hp & -> & Hlen & Hms).
  pose proof (loc_slice_well_formed df s e Hwf) as Hwf'.
  split; [simpl; rewrite Hlen; reflexivity|].
  constructor.
  - eapply price_trace_rectangular; eauto.
  - apply Forall_forall. intros t Hin.
    destruct (Hms t Hin) as (i & Hi & Ht).
    eapply signal_trace_rectangular; eauto.
    intros c Hc. eapply valid_call_masks; eauto. lia.
Qed.

(** X13.  On a line chart of a well-formed table every marker sits on the
    price line: each point (stamp, price) of each marker trace is a point
    of the price trace. *)
Theorem markers_on_price_line
        fuel h df s e price_column n names title msyms mcols inc dec :
  well_formed df = true ->
  valid_call h df s e "line" price_column n names msyms mcols = true ->
  (Z.to_nat n <= fuel)%nat ->
  exists h' fig x y markers,
    equity_chart_with_signals fuel h df s e "line" price_column n names
                              title msyms mcols inc dec
    = Some (h', Return fig) /\
    traces fig = line_trace x y price_column :: markers /\
    forall t, In t markers ->
      exists mx my name color symbol,
        t = marker_trace mx my name color symbol /\
        length my = length mx /\
        incl (combine mx my) (combine x y).
Proof.
  intros Hwf Hvalid Hfuel.
  destruct (valid_call_returns fuel h df s e "line" price_column n names
              title msyms mcols inc dec Hvalid Hfuel)
    as (h' & syms & cols & fig & _ & Hb & Hcall).
  apply markers_are_rounds in Hb as (p & ms & Hp & Htr & _ & Hms).
  pose proof (loc_slice_well_formed df s e Hwf) as Hwf'.
  rewrite price_trace_line in Hp.
  apply bind_Return in Hp as (y & Hy & [= <-]).
  apply df_getitem_Return in Hy.
  exists h', fig, (index (loc_slice df s e)), y, ms.
  split; [exact Hcall|]. split; [exact Htr|].
  intros t Hin. destruct (Hms t Hin) as (i & Hi & Ht).
  assert (Hmask : forall c, opt_getitem names i = Return c ->
                            is_mask (loc_slice df s e) c = true)
    by (intros c Hc; eapply valid_call_masks; eauto; lia).
  destruct (signal_trace_rectangular _ _ _ _ _ _ _ Hwf' Hmask Ht)
    as (Hrect & mask & prices & Hl & _ & name & color & symbol & ->).
  assert (prices = y) as -> by congruence.
  exists (select mask (index (loc_slice df s e))), (select mask y),
    name, color, symbol.
  split; [reflexivity|]. split; [exact Hrect|].
  rewrite <- select_combine. apply select_incl.
Qed.

(** X14.  A date range that holds no stamp of the table, for instance one
    whose end lies before its start, is no error: a valid call on boolean
    signal columns still returns the figure with all its traces, and every
    trace is empty. *)
Theorem empty_range_empty_traces
        fuel h df s e chart_type price_column n names title msyms mcols
        inc dec :
  well_formed df = true ->
  valid_call h df s e chart_type price_column n names msyms mcols = true ->
  (Z.to_nat n <= fuel)%nat ->
  (forall c, In c (names_list names) -> is_mask df c = true) ->
  (forall t, In t (index df) -> t < s \/ e < t) ->
  exists h' fig,
    equity_chart_with_signals fuel h df s e chart_type price_column n names
                              title msyms mcols inc dec
    = Some (h', Return fig) /\
    length (traces fig) = S (Z.to_nat n) /\
    Forall (fun t => stamps t = [] /\ rectangular t) (traces fig).
Proof.
  intros Hwf Hvalid Hfuel _ Hout.
  destruct (valid_call_returns fuel h df s e chart_type price_column n names
              title msyms mcols inc dec Hvalid Hfuel)
    as (h' & syms & cols & fig & _ & Hb & Hcall).
  exists h', fig. split; [exact Hcall|].
  apply markers_are_rounds in Hb as (p & ms & Hp & -> & Hlen & Hms).
  pose proof (loc_slice_well_formed df s e Hwf) as Hwf'.
  assert (Hidx : index (loc_slice df s e) = []).
  { rewrite (loc_slice_index df s e (well_formed_ascending df Hwf)).
    destruct (filter (in_range s e) (index df)) as [|t r] eqn:E;
      [reflexivity|].
    assert (Hin : In t (filter (in_range s e) (index df)))
      by (rewrite E; left; reflexivity).
    apply filter_In in Hin as [Hin Hr]. unfold in_range in Hr.
    apply andb_true_iff in Hr as [H1 H2].
    destruct (Hout t Hin); lia. }
  split; [simpl; rewrite Hlen; reflexivity|].
  constructor.
  - destruct (price_trace_rectangular _ _ _ _ _ _ Hwf' Hp) as [Hr Hs].
    split; [rewrite Hs; exact Hidx | exact Hr].
  - apply Forall_forall. intros t Hin.
    destruct (Hms t Hin) as (i & Hi & Ht).
    assert (Hmask : forall c, opt_getitem names i = Return c ->
                              is_mask (loc_slice df s e) c = true)
      by (intros c Hc; eapply valid_call_masks; eauto; lia).
    destruct (signal_trace_rectangular _ _ _ _ _ _ _ Hwf' Hmask Ht)
      as (Hrect & mask & prices & _ & Hst & _).
    split; [|exact Hrect]. rewrite Hst, Hidx. apply select_nil_r.
Qed.

End Builder.

(** * Worked inputs *)

Lemma invalid_chart_type_rejected_witness :
  equity_chart_with_signals sample_pandas 0 sample_heap sample_table 3 7 "bar" "close" 1
                            (Some ["buy"]) "Chart" None None "green" "red"
  = Some (sample_heap, Raise (ValueError BadChartType)) /\
  InvalidChartType (ValueError BadChartType).
Proof.
  apply invalid_chart_type_rejected; discriminate.
Defined.

Lemma missing_ohlc_columns_reported_witness :
  exists missing e',
    equity_chart_with_signals sample_pandas 0 sample_heap sample_table 3 7 "candlestick"
                              "close" 0 None "Chart" None None "green" "red"
    = Some (sample_heap, Raise e') /\
    MissingColumns missing e' /\
    NoDup missing /\
    forall c, In c missing <->
              In c ["open"; "high"; "low"; "close"] /\
              ~ In c (columns sample_table).
Proof.
  apply missing_ohlc_columns_reported.
  exists "open". split; [simpl; auto|].
  simpl. intros [H | [H | H]]; (discriminate || contradiction).
Defined.

Lemma signal_config_mismatch_raised_witness :
  exists e',
    equity_chart_with_signals sample_pandas 0 sample_heap sample_table 3 7 "line" "close"
                              2 (Some ["a"; "b"; "c"]) "Chart" None None
                              "green" "red"
    = Some (sample_heap, Raise e') /\
    SignalConfigMismatch e' /\
    (Some ["a"; "b"; "c"] = None -> e' = ValueError NamesNotProvided) /\
    (forall l, Some ["a"; "b"; "c"] = Some l ->
               e' = ValueError (NamesLengthMismatch (length l) 2)).
Proof.
  apply signal_config_mismatch_raised.
  - left. reflexivity.
  - lia.
  - right. exists ["a"; "b"; "c"]. split; [reflexivity | discriminate].
Defined.

(** C4 as stated fails: with an unsupported chart type the first check
    fires, whatever the signal configuration is. *)
Lemma signal_mismatch_not_first_error :
  ~ (forall fuel h df s e chart_type price_column n names title msyms mcols
            inc dec,
        0 < n ->
        names = None \/ (exists l, names = Some l /\ len l <> n) ->
        exists h' e',
          equity_chart_with_signals sample_pandas fuel h df s e chart_type price_column n
                                    names title msyms mcols inc dec
          = Some (h', Raise e') /\
          SignalConfigMismatch e').
Proof.
  intros H.
  destruct (H O sample_heap sample_table 3 7 "bar" "close" 2 None "Chart"
              None None "green" "red" ltac:(lia) (or_introl eq_refl))
    as (h' & e' & Hcall & Hm).
  cbv in Hcall. injection Hcall as _ <-.
  destruct Hm as [Hm|(k & m & Hm)]; discriminate.
Qed.

Lemma zero_count_with_names_rejected_witness :
  equity_chart_with_signals sample_pandas 0 sample_heap sample_table 3 7 "line" "close" 0
                            (Some ["buy"]) "Chart" None None "green" "red"
  = Some (sample_heap, Raise (ValueError (NamesLengthMismatch 1 0))).
Proof.
  apply (zero_count_with_names_rejected sample_pandas
           0 sample_heap sample_table 3 7 "line" "close" (Some ["buy"])
           "Chart" None None "green" "red" ["buy"]).
  - left. reflexivity.
  - reflexivity.
  - discriminate.
Defined.

(** C9 as stated fails for the same reason as C4: an unsupported chart type
    is reported before the name list is looked at. *)
Lemma zero_count_names_not_first_error :
  ~ (forall fuel h df s e chart_type price_column names title msyms mcols
            inc dec (l : list string),
        names = Some l -> l <> [] ->
        exists h' k m,
          equity_chart_with_signals sample_pandas fuel h df s e chart_type price_column 0
                                    names title msyms mcols inc dec
          = Some (h', Raise (ValueError (NamesLengthMismatch k m)))).
Proof.
  intros H.
  destruct (H O sample_heap sample_table 3 7 "bar" "close" (Some ["buy"])
              "Chart" None None "green" "red" ["buy"] eq_refl
              ltac:(discriminate))
    as (h' & k & m & Hcall).
  cbv in Hcall. discriminate.
Qed.

Lemma negative_count_price_trace_only_witness :
  (forall h' e',
      equity_chart_with_signals sample_pandas 0 sample_heap sample_table 3 7 "line" "close"
                                (-1) None "Chart" (Some 1%nat) None
                                "green" "red"
      = Some (h', Raise e') -> ~ SignalConfigMismatch e') /\
  (chart_accepted sample_table "line" ->
   ("line" = "line" -> In "close" (columns sample_table)) ->
   exists p,
     price_trace (loc_slice sample_table 3 7) "line" "close" "green" "red"
     = Return p /\
     equity_chart_with_signals sample_pandas 0 sample_heap sample_table 3 7 "line" "close"
                               (-1) None "Chart" (Some 1%nat) None
                               "green" "red"
     = Some (sample_heap,
             Return {| secondary_y := true; traces := [p];
                       fig_layout := chart_layout "Chart" |})).
Proof.
  apply negative_count_price_trace_only. lia.
Defined.

(** C10 as stated fails: a negative count does not switch off the chart
    type check, so such a call can still end in a validation error. *)
Lemma negative_count_still_validated :
  ~ (forall fuel h df s e chart_type price_column n title msyms mcols
            inc dec,
        n < 0 ->
        exists h' fig p,
          equity_chart_with_signals sample_pandas fuel h df s e chart_type price_column n
                                    None title msyms mcols inc dec
          = Some (h', Return fig) /\
          traces fig = [p]).
Proof.
  intros H.
  destruct (H O sample_heap sample_table 3 7 "bar" "close" (-1) "Chart"
              None None "green" "red" ltac:(lia))
    as (h' & fig & p & Hcall & _).
  cbv in Hcall. discriminate.
Qed.

Lemma empty_marker_list_never_returns_witness :
  validate sample_table "line" 1 (Some ["buy"]) = Return tt /\
  sample_heap 1%nat = [] /\
  forall fuel,
    equity_chart_with_signals sample_pandas fuel sample_heap sample_table 3 7 "line"
                              "close" 1 (Some ["buy"]) "Chart"
                              (Some 1%nat) None "green" "red" = None.
Proof.
  split; [reflexivity|]. split; [reflexivity|].
  apply (empty_marker_list_never_returns sample_pandas
           sample_heap sample_table 3 7 "line" "close" 1 (Some ["buy"])
           "Chart" (Some 1%nat) None "green" "red" 1%nat).
  - reflexivity.
  - lia.
  - reflexivity.
  - left. reflexivity.
Defined.

Lemma short_marker_list_extended_in_place_witness :
  exists h' out,
    equity_chart_with_signals sample_pandas 5 sample_heap sample_table 3 7 "line" "close" 5
                              (Some ["buy"; "buy"; "buy"; "buy"; "buy"])
                              "Chart" (Some O) None "green" "red"
    = Some (h', out) /\
    5 <= len (h' O) /\ h' O <> sample_heap O.
Proof.
  apply (short_marker_list_extended_in_place sample_pandas
           5 sample_heap sample_table 3 7 "line" "close" 5
           (Some ["buy"; "buy"; "buy"; "buy"; "buy"])
           "Chart" (Some O) None "green" "red" O).
  - reflexivity.
  - simpl. right. discriminate.
  - exact I.
  - simpl. lia.
  - left. reflexivity.
  - unfold len. simpl. lia.
Defined.

(** The store after that call: the two entries the caller passed have become
    eight. *)
Example caller_list_after_call :
  option_map (fun r => fst r O)
             (equity_chart_with_signals sample_pandas
                5 sample_heap sample_table 3 7 "line" "close" 5
                (Some ["buy"; "buy"; "buy"; "buy"; "buy"])
                "Chart" (Some O) None "green" "red")
  = Some ["circle"; "square"; "circle"; "square";
          "circle"; "square"; "circle"; "square"].
Proof. reflexivity. Qed.


(** Ten rows, a range that covers rows 3 to 7, and one signal that is true
    on two of them: the line trace holds rows 3 to 7 and the marker trace
    the two points, in the first default colour and symbol. *)
Example rows_3_to_7 :
  equity_chart_with_signals sample_pandas 1 sample_heap sample_table 3 7 "line" "close" 1
                            (Some ["buy"]) "Chart" None None "green" "red"
  = Some (sample_heap,
          Return {| secondary_y := true;
                    traces :=
                      [line_trace [3; 4; 5; 6; 7]
                                  [Num 103; Num 104; Num 105; Num 106; Num 107]
                                  "close";
                       marker_trace [4; 6] [Num 104; Num 106] "buy"
                                    "green" "triangle-down"];
                    fig_layout := chart_layout "Chart" |}).
Proof. reflexivity. Qed.

(** A list of two entries and five signals: the list is doubled twice, to
    eight entries, and the five markers cycle through the two styles. *)
Example two_styles_five_signals :
  option_map
    (fun r => match snd r with
              | Return fig =>
                  map (fun t => match t with
                                | Scatter _ _ _ _ _ (Some m) => marker_symbol m
                                | _ => ""
                                end) (tl (traces fig))
              | Raise _ => []
              end)
    (equity_chart_with_signals sample_pandas
       5 sample_heap sample_table 3 7 "line" "close" 5
       (Some ["buy"; "buy"; "buy"; "buy"; "buy"])
       "Chart" (Some O) None "green" "red")
  = Some ["circle"; "square"; "circle"; "square"; "circle"].
Proof. reflexivity. Qed.

Example candlestick_rows :
  option_map
    (fun r => match snd r with
              | Return fig => hd_error (traces fig)
              | Raise _ => None
              end)
    (equity_chart_with_signals sample_pandas
       0 sample_heap sample_ohlc 8 20 "candlestick" "close" 0 None
       "Chart" None None "lime" "maroon")
  = Some (Some (Candlestick [8; 9; 10]
                            [Num 107; Num 108; Num 109]
                            [Num 109; Num 110; Num 111]
                            [Num 106; Num 107; Num 108]
                            [Num 108; Num 109; Num 110]
                            "OHLC" "lime" "maroon" (9 # 10)%Q)).
Proof. reflexivity. Qed.

Lemma missing_price_column_key_error_witness :
  validate sample_table "line" 1 (Some ["buy"]) = Return tt /\
  exists h',
    equity_chart_with_signals sample_pandas 1 sample_heap sample_table 3 7 "line"
                              "adj_close" 1 (Some ["buy"]) "Chart" None None
                              "green" "red"
    = Some (h', Raise (KeyError "adj_close")).
Proof.
  apply missing_price_column_key_error.
  - reflexivity.
  - simpl. intros [H | [H | H]]; (discriminate || contradiction).
  - exact I.
  - exact I.
  - simpl. lia.
Defined.

Lemma failed_call_keeps_extension_witness :
  exists h',
    equity_chart_with_signals sample_pandas 5 sample_heap sample_table 3 7 "line"
                              "adj_close" 5
                              (Some ["buy"; "buy"; "buy"; "buy"; "buy"])
                              "Chart" (Some O) None "green" "red"
    = Some (h', Raise (KeyError "adj_close")) /\
    5 <= len (h' O) /\ h' O <> sample_heap O.
Proof.
  apply (failed_call_keeps_extension sample_pandas
           5 sample_heap sample_table 3 7 "adj_close" 5
           (Some ["buy"; "buy"; "buy"; "buy"; "buy"])
           "Chart" (Some O) None "green" "red" O).
  - reflexivity.
  - simpl. intros [H | [H | H]]; (discriminate || contradiction).
  - simpl. right. discriminate.
  - exact I.
  - simpl. lia.
  - left. reflexivity.
  - unfold len. simpl. lia.
Defined.

Lemma first_missing_signal_column_key_error_witness :
  exists h',
    equity_chart_with_signals sample_pandas 2 sample_heap sample_table 3 7 "line" "close"
                              2 (Some ["buy"; "sell"]) "Chart" None None
                              "green" "red"
    = Some (h', Raise (KeyError "sell")).
Proof.
  apply (first_missing_signal_column_key_error sample_pandas
           2 sample_heap sample_table 3 7 "line" "close" 2
           (Some ["buy"; "sell"]) "Chart" None None "green" "red" 1 "sell").
  - reflexivity.
  - exact I.
  - exact I.
  - simpl. lia.
  - simpl. auto.
  - lia.
  - reflexivity.
  - simpl. intros [H | [H | H]]; (discriminate || contradiction).
  - intros i c' Hi Hget. assert (i = 0) as -> by lia.
    cbv in Hget. injection Hget as <-. reflexivity.
Defined.

Lemma caller_list_growth_witness :
  exists h' out k,
    equity_chart_with_signals sample_pandas 5 sample_heap sample_table 3 7 "line" "close" 5
                              (Some ["buy"; "buy"; "buy"; "buy"; "buy"])
                              "Chart" (Some O) None "green" "red"
    = Some (h', out) /\
    h' O = concat (repeat (sample_heap O) (2 ^ k)) /\
    (5 <= len (sample_heap O) -> h' O = sample_heap O) /\
    (len (sample_heap O) < 5 -> 5 <= len (h' O) < 2 * 5).
Proof.
  apply (caller_list_growth sample_pandas
           5 sample_heap sample_table 3 7 "line" "close" 5
           (Some ["buy"; "buy"; "buy"; "buy"; "buy"])
           "Chart" (Some O) None "green" "red" O).
  - reflexivity.
  - simpl. right. discriminate.
  - exact I.
  - simpl. lia.
  - left. reflexivity.
Defined.


Lemma caller_store_frame_witness :
  exists h' out,
    equity_chart_with_signals sample_pandas 5 sample_heap sample_table 3 7 "line" "close" 5
                              (Some ["buy"; "buy"; "buy"; "buy"; "buy"])
                              "Chart" (Some O) None "green" "red"
    = Some (h', out) /\
    h' 1%nat = sample_heap 1%nat.
Proof.
  destruct (equity_chart_with_signals sample_pandas
              5 sample_heap sample_table 3 7 "line" "close" 5
              (Some ["buy"; "buy"; "buy"; "buy"; "buy"])
              "Chart" (Some O) None "green" "red") as [[h' out]|] eqn:E.
  - exists h', out. split; [reflexivity|].
    apply (caller_store_frame sample_pandas _ _ _ _ _ _ _ _ _ _ _ _ _ _ _ _ 1%nat E).
    left. split; discriminate.
  - vm_compute in E. discriminate E.
Defined.

Lemma no_signals_price_trace_only_witness :
  exists p,
    price_trace (loc_slice sample_ohlc 3 7) "candlestick" "close"
                "green" "red" = Return p /\
    equity_chart_with_signals sample_pandas 0 sample_heap sample_ohlc 3 7 "candlestick"
                              "close" 0 (Some []) "Chart" (Some 1%nat) None
                              "green" "red"
    = Some (sample_heap,
            Return {| secondary_y := true; traces := [p];
                      fig_layout := chart_layout "Chart" |}).
Proof.
  apply no_signals_price_trace_only.
  - lia.
  - reflexivity.
  - right. split; reflexivity.
  - discriminate.
Defined.

Lemma filtered_table_well_formed_witness :
  well_formed (loc_slice sample_table 3 7) = true /\
  columns (loc_slice sample_table 3 7) = columns sample_table /\
  forall t, In t (index (loc_slice sample_table 3 7)) <->
            In t (index sample_table) /\ 3 <= t <= 7.
Proof.
  apply filtered_table_well_formed. reflexivity.
Defined.

Lemma traces_rectangular_witness :
  exists h' fig,
    equity_chart_with_signals sample_pandas 1 sample_heap sample_ohlc 3 7 "candlestick"
                              "close" 1 (Some ["buy"]) "Chart" None None
                              "green" "red"
    = Some (h', Return fig) /\
    length (traces fig) = S (Z.to_nat 1) /\
    Forall rectangular (traces fig).
Proof.
  apply traces_rectangular.
  - reflexivity.
  - reflexivity.
  - simpl. lia.
Defined.

Lemma markers_on_price_line_witness :
  exists h' fig x y markers,
    equity_chart_with_signals sample_pandas 1 sample_heap sample_table 3 7 "line" "close" 1
                              (Some ["buy"]) "Chart" None None "green" "red"
    = Some (h', Return fig) /\
    traces fig = line_trace x y "close" :: markers /\
    forall t, In t markers ->
      exists mx my name color symbol,
        t = marker_trace mx my name color symbol /\
        length my = length mx /\
        incl (combine mx my) (combine x y).
Proof.
  apply markers_on_price_line.
  - reflexivity.
  - reflexivity.
  - simpl. lia.
Defined.

Lemma empty_range_empty_traces_witness :
  exists h' fig,
    equity_chart_with_signals sample_pandas 1 sample_heap sample_table 7 3 "line" "close" 1
                              (Some ["buy"]) "Chart" None None "green" "red"
    = Some (h', Return fig) /\
    length (traces fig) = S (Z.to_nat 1) /\
    Forall (fun t => stamps t = [] /\ rectangular t) (traces fig).
Proof.
  apply empty_range_empty_traces.
  - reflexivity.
  - reflexivity.
  - simpl. lia.
  - intros c [<-|[]]. reflexivity.
  - intros t _. lia.
Defined.

Lemma empty_marker_list_never_resolved_witness :
  (forall k,
      Z.of_nat (length (concat (repeat (sample_heap 1%nat) (2 ^ k)))) < 1) /\
  (forall fuel h' syms cols,
      ~ markers_resolved fuel 1 sample_heap (Some 1%nat) None h' syms cols).
Proof.
  apply (empty_marker_list_never_resolved 1 sample_heap (Some 1%nat) None
                                          1%nat).
  - lia.
  - reflexivity.
  - left. reflexivity.
Defined.

(** Three signals, two symbols and two colours from the caller: the traces
    carry the names in order, and the third signal wraps to the first
    style. *)
Lemma signal_marker_traces_witness :
  exists h' fig,
    equity_chart_with_signals sample_pandas 3 styles_heap signals_table 3 7
                              "line" "close" 3
                              (Some ["buy"; "sell"; "hold"]) "Chart"
                              (Some O) (Some 1%nat) "green" "red"
    = Some (h', Return fig) /\
    length (traces fig) = 4%nat /\
    nth_error (traces fig) 1
    = Some (marker_trace [4; 6] [Num 104; Num 106] "buy" "blue" "circle") /\
    nth_error (traces fig) 2
    = Some (marker_trace [5; 7] [Num 105; Num 107]
                         "sell" "orange" "square") /\
    nth_error (traces fig) 3
    = Some (marker_trace [3] [Num 103] "hold" "blue" "circle").
Proof.
  destruct (signal_marker_traces
              sample_pandas 3 styles_heap signals_table 3 7 "line" "close" 3
              (Some ["buy"; "sell"; "hold"]) "Chart" (Some O) (Some 1%nat)
              "green" "red")
    as (h' & fig & ks & kc & Hcall & Hlen & H);
    [reflexivity | reflexivity | simpl; lia |].
  cbv zeta in H. destruct H as (_ & _ & Htr).
  exists h', fig. split; [exact Hcall|]. split; [exact Hlen|].
  assert (Hat : forall i name color symbol,
             0 <= i < 3 ->
             nth_error ["buy"; "sell"; "hold"] (Z.to_nat i) = Some name ->
             nth_error (styles_heap 1%nat)
                       (Z.to_nat (i mod Z.of_nat (length (styles_heap 1%nat))))
             = Some color ->
             nth_error (styles_heap O)
                       (Z.to_nat (i mod Z.of_nat (length (styles_heap O))))
             = Some symbol ->
             exists prices sig,
               lookup_column (data signals_table) "close" = Some prices /\
               lookup_column (data signals_table) name = Some sig /\
               nth_error (traces fig) (S (Z.to_nat i))
               = Some (marker_trace
                         (map fst (signal_points 3 7 (index signals_table)
                                                 prices sig))
                         (map snd (signal_points 3 7 (index signals_table)
                                                 prices sig))
                         name color symbol)).
  { intros i name color symbol Hi Hn Hc Hs.
    destruct (Htr i Hi)
      as (name' & prices & sig & color' & symbol'
          & Hn' & Hp & Hsig & _ & _ & Hc' & Hs' & Ht).
    cbn [names_list] in Hn'.
    assert (name' = name) as -> by congruence.
    assert (color' = color) as -> by congruence.
    assert (symbol' = symbol) as -> by congruence.
    exists prices, sig. auto. }
  split; [|split].
  - destruct (Hat 0 "buy" "blue" "circle") as (prices & sig & Hp & Hs & Ht);
      [lia | reflexivity | reflexivity | reflexivity |].
    cbv in Hp. injection Hp as <-. cbv in Hs. injection Hs as <-. exact Ht.
  - destruct (Hat 1 "sell" "orange" "square")
      as (prices & sig & Hp & Hs & Ht);
      [lia | reflexivity | reflexivity | reflexivity |].
    cbv in Hp. injection Hp as <-. cbv in Hs. injection Hs as <-. exact Ht.
  - destruct (Hat 2 "hold" "blue" "circle") as (prices & sig & Hp & Hs & Ht);
      [lia | reflexivity | reflexivity | reflexivity |].
    cbv in Hp. injection Hp as <-. cbv in Hs. injection Hs as <-. exact Ht.
Defined.
